(** * userAuth.js: authorization gate of the library customization

    A shallow embedding of [src/userAuth.js]: the allow-list built when the
    module is loaded, the domain matcher [isAuthorized], the identity
    normalizer [setUserInfo] and the request gate registered with
    [router.use].  Strings are sequences of code units below 256, written as
    Rocq strings. *)

From Stdlib Require Import String Ascii List ZArith Lia Bool Arith.
Import ListNotations.

Open Scope string_scope.
Open Scope list_scope.

(** ** JavaScript values, errors and completions *)

(** The values [isAuthorized] can return: a boolean or [undefined]. *)
Inductive JSValue : Type :=
| JSUndefined
| JSBool (b : bool).

(** ToBoolean on those values. *)
Definition truthy (v : JSValue) : bool :=
  match v with
  | JSBool true => true
  | _ => false
  end.

Inductive JSError : Type :=
| TypeError (msg : string)
| SyntaxError (msg : string)
| Error (msg : string).

(** An evaluation either completes normally with a value or throws. *)
Inductive Completion (A : Type) : Type :=
| Normal (a : A)
| Throw (e : JSError).

Arguments Normal {A} a.
Arguments Throw {A} e.

(** [a || b]: the left operand if it is truthy, else the right one, which is
    evaluated only then. *)
Definition jsOr (a : Completion JSValue) (b : unit -> Completion JSValue)
  : Completion JSValue :=
  match a with
  | Throw e => Throw e
  | Normal v => if truthy v then Normal v else b tt
  end.

(** ToString of a value that is a string or [undefined]. *)
Definition ToString (v : option string) : string :=
  match v with
  | Some s => s
  | None => "undefined"
  end.

(** ** Strings and arrays *)

(** First piece and remaining pieces of [s] cut at every [sep]. *)
Fixpoint splitPieces (sep : ascii) (s : string) : string * list string :=
  match s with
  | EmptyString => (EmptyString, [])
  | String c s' =>
      let (piece, pieces) := splitPieces sep s' in
      if Ascii.eqb c sep then (EmptyString, piece :: pieces)
      else (String c piece, pieces)
  end.

(** [s.split(sep)] for a one-character separator: never the empty array. *)
Definition String_split (sep : ascii) (s : string) : list string :=
  let (piece, pieces) := splitPieces sep s in piece :: pieces.

(** [arr.slice(-1)]: the last element, as an array. *)
Definition Array_slice_last {A : Type} (arr : list A) : list A :=
  skipn (List.length arr - 1) arr.

(** Does the string contain the character? *)
Fixpoint String_includes (c : ascii) (s : string) : bool :=
  match s with
  | EmptyString => false
  | String x s' => Ascii.eqb x c || String_includes c s'
  end.

(** ** The allow-list: a JavaScript [Set] of strings

    A [Set] keeps its elements in insertion order without repetition;
    [Array.from] lists them in that order. *)

Definition JSSet : Type := list string.

Definition Set_has (s : JSSet) (x : string) : bool :=
  existsb (String.eqb x) s.

Definition Set_add (s : JSSet) (x : string) : JSSet :=
  if Set_has s x then s else s ++ [x].

(** [new Set(iterable)] *)
Definition Set_new (l : list string) : JSSet :=
  fold_left Set_add l [].

Definition Array_from (s : JSSet) : list string := s.

(** ** Profiles *)

(** One entry of [profile.emails]; [value] may be missing. *)
Record EmailEntry : Type := { value : option string }.

(** The profile passport stores in the session.  Every property may be
    missing; [{}] is [Profile.empty]. *)
Module Profile.
Record t : Type := {
  id : option string;
  email : option string;
  emails : option (list EmailEntry)
}.
Definition empty : t := {| id := None; email := None; emails := None |}.
End Profile.

(** [const [{value: userEmail = ''} = {}] = user.emails || []] *)
Definition firstEmailValue (user : Profile.t) : string :=
  let arr := match Profile.emails user with Some l => l | None => [] end in
  let entry := match arr with e :: _ => e | [] => {| value := None |} end in
  match value entry with
  | Some v => v
  | None => ""
  end.

(** A profile without email entries: [emails] missing or empty. *)
Definition noEmailEntries (user : Profile.t) : bool :=
  match Profile.emails user with
  | None | Some [] => true
  | Some (_ :: _) => false
  end.

(** A profile as Google returns it, with one email entry. *)
Definition googleProfile (id email : string) : Profile.t :=
  {| Profile.id := Some id;
     Profile.email := None;
     Profile.emails := Some [{| value := Some email |}] |}.

(** [const [userDomain] = userEmail.split('@').slice(-1)] *)
Definition userDomainOf (userEmail : string) : string :=
  match Array_slice_last (String_split "@" userEmail) with
  | d :: _ => d
  | [] => ""
  end.

(** ** Regular expressions

    [userDomain.match(domain)] builds [new RegExp(domain)], which throws a
    SyntaxError on an ill-formed pattern, and searches [userDomain] for a
    match.  The engine belongs to the JavaScript runtime, so the matcher is
    written against this interface. *)
Class RegExpEngine : Type := {
  RegExp : Type;
  (** [new RegExp(pattern)]; [None] when the pattern is rejected *)
  RegExp_new : string -> option RegExp;
  (** is the result of [RegExp.prototype.exec] other than [null]? *)
  RegExp_exec : RegExp -> string -> bool
}.

Section DomainMatcher.
Context {engine : RegExpEngine}.

(** [str.match(pattern)], as far as the code looks at it: whether a match
    was found.  Of the SyntaxError only the class matters; its message
    names the pattern. *)
Definition String_match (str pattern : string) : Completion bool :=
  match RegExp_new pattern with
  | None => Throw (SyntaxError ("Invalid regular expression: /" ++ pattern ++ "/")%string)
  | Some re => Normal (RegExp_exec re str)
  end.

(** The [for ... of] loop of [checkRegexEmail]; falling off its end
    returns [undefined]. *)
Fixpoint checkRegexLoop (userDomain : string) (domainsArray : list string)
  : Completion JSValue :=
  match domainsArray with
  | [] => Normal JSUndefined
  | domain :: rest =>
      match String_match userDomain domain with
      | Throw e => Throw e
      | Normal true => Normal (JSBool true)
      | Normal false => checkRegexLoop userDomain rest
      end
  end.

Definition checkRegexEmail (domains : JSSet) (userDomain : string)
  : Completion JSValue :=
  let domainsArray := Array_from domains in
  checkRegexLoop userDomain domainsArray.

Definition isAuthorized (domains : JSSet) (user : Profile.t)
  : Completion JSValue :=
  let userEmail := firstEmailValue user in
  let userDomain := userDomainOf userEmail in
  jsOr (jsOr (Normal (JSBool (Set_has domains userDomain)))
             (fun _ => Normal (JSBool (Set_has domains userEmail))))
       (fun _ => checkRegexEmail domains userDomain).

(** The three checks of the matcher, to state what reordering them would
    do.  [isAuthorizedInOrder] is not in the source: it is the source's
    return expression with its operands in a chosen order. *)
Inductive Check : Type := DomainLiteral | EmailLiteral | RegexSearch.

Definition runCheck (domains : JSSet) (user : Profile.t) (c : Check)
  : Completion JSValue :=
  let userEmail := firstEmailValue user in
  let userDomain := userDomainOf userEmail in
  match c with
  | DomainLiteral => Normal (JSBool (Set_has domains userDomain))
  | EmailLiteral => Normal (JSBool (Set_has domains userEmail))
  | RegexSearch => checkRegexEmail domains userDomain
  end.

Definition isAuthorizedInOrder (c1 c2 c3 : Check)
           (domains : JSSet) (user : Profile.t) : Completion JSValue :=
  jsOr (jsOr (runCheck domains user c1) (fun _ => runCheck domains user c2))
       (fun _ => runCheck domains user c3).

(** [pattern] is accepted by [new RegExp]. *)
Definition wellFormed (pattern : string) : bool :=
  match RegExp_new pattern with
  | Some _ => true
  | None => false
  end.

(** [pattern], as a regular expression, is found somewhere in [str]. *)
Definition regexMatches (pattern str : string) : bool :=
  match RegExp_new pattern with
  | Some re => RegExp_exec re str
  | None => false
  end.

(** What the spec lists for an email [E]: its domain or [E] itself is an
    element of the set, or some element is a pattern found in the
    domain. *)
Definition listed (S : JSSet) (E : string) : bool :=
  Set_has S (userDomainOf E) || Set_has S E
  || existsb (fun p => regexMatches p (userDomainOf E)) S.

(** The orders in which each check is run once. *)
Definition isOrder (c1 c2 c3 : Check) : bool :=
  match c1, c2, c3 with
  | DomainLiteral, EmailLiteral, RegexSearch
  | DomainLiteral, RegexSearch, EmailLiteral
  | EmailLiteral, DomainLiteral, RegexSearch
  | EmailLiteral, RegexSearch, DomainLiteral
  | RegexSearch, DomainLiteral, EmailLiteral
  | RegexSearch, EmailLiteral, DomainLiteral => true
  | _, _, _ => false
  end.
End DomainMatcher.

(** ** An engine for a fragment of the pattern language

    Patterns built from ordinary characters, [.], escaped syntax characters,
    groups [( )], alternatives [|], the quantifiers [*], [+], [?] (also in
    their lazy forms) and the assertions [^] and [$], with the meaning
    ECMAScript gives them without flags.  An ill-formed pattern of the
    fragment is rejected, as by [new RegExp]; so is, conservatively, any
    pattern with syntax outside the fragment (character classes, braces,
    other escapes, [(?] groups); the closed examples below use patterns of
    the fragment only.  The parser is given three units of fuel for each
    character, and more fuel would not change its answer. *)
Module MiniRegExp.

Inductive regex : Type :=
| Empty
| Char (c : ascii)
| AnyChar
| Seq (a b : regex)
| Alt (a b : regex)
| Star (a : regex)
| InputStart
| InputEnd.

Definition isSyntaxCharacter (c : ascii) : bool :=
  existsb (Ascii.eqb c)
    ["^"; "$"; "\"; "."; "*"; "+"; "?"; "("; ")"; "["; "]"; "{"; "}"; "|"]%char.

(** Characters that cannot stand for themselves where an atom is expected
    (the braces and [[] only because the fragment leaves them out). *)
Definition notAtomStart (c : ascii) : bool :=
  existsb (Ascii.eqb c) ["*"; "+"; "?"; ")"; "|"; "["; "{"]%char.

Definition isLineTerminator (c : ascii) : bool :=
  Ascii.eqb c "010"%char || Ascii.eqb c "013"%char.

(** A [?] after a quantifier only makes it lazy. *)
Definition skipLazy (s : list ascii) : list ascii :=
  match s with
  | c :: r => if Ascii.eqb c "?" then r else s
  | [] => s
  end.

(** The atom [a] with the quantifier at the head of [s], if there is one. *)
Definition quantified (a : regex) (s : list ascii) : regex * list ascii :=
  match s with
  | c :: r =>
      if Ascii.eqb c "*" then (Star a, skipLazy r)
      else if Ascii.eqb c "+" then (Seq a (Star a), skipLazy r)
      else if Ascii.eqb c "?" then (Alt a Empty, skipLazy r)
      else (a, s)
  | [] => (a, s)
  end.

(** Recursive descent along the grammar Disjunction / Alternative / Term;
    each function returns the expression and the unread rest. *)
Fixpoint parseDisjunction (fuel : nat) (s : list ascii)
  : option (regex * list ascii) :=
  match fuel with
  | 0 => None
  | S fuel' =>
      match parseAlternative fuel' s with
      | Some (a, c :: r) =>
          if Ascii.eqb c "|" then
            match parseDisjunction fuel' r with
            | Some (d, r') => Some (Alt a d, r')
            | None => None
            end
          else Some (a, c :: r)
      | other => other
      end
  end
with parseAlternative (fuel : nat) (s : list ascii)
  : option (regex * list ascii) :=
  match fuel with
  | 0 => None
  | S fuel' =>
      match s with
      | [] => Some (Empty, [])
      | c :: _ =>
          if Ascii.eqb c "|" || Ascii.eqb c ")" then Some (Empty, s)
          else
            match parseTerm fuel' s with
            | Some (t, r) =>
                match parseAlternative fuel' r with
                | Some (a, r') => Some (Seq t a, r')
                | None => None
                end
            | None => None
            end
      end
  end
with parseTerm (fuel : nat) (s : list ascii)
  : option (regex * list ascii) :=
  match fuel with
  | 0 => None
  | S fuel' =>
      match s with
      | [] => None
      | c :: r =>
          if Ascii.eqb c "^" then Some (InputStart, r)
          else if Ascii.eqb c "$" then Some (InputEnd, r)
          else if Ascii.eqb c "." then Some (quantified AnyChar r)
          else if Ascii.eqb c "(" then
            match r with
            | q :: _ =>
                if Ascii.eqb q "?" then None
                else
                  match parseDisjunction fuel' r with
                  | Some (d, p :: r') =>
                      if Ascii.eqb p ")" then Some (quantified d r') else None
                  | _ => None
                  end
            | [] => None
            end
          else if Ascii.eqb c "\" then
            match r with
            | e :: r' =>
                if isSyntaxCharacter e then Some (quantified (Char e) r')
                else None
            | [] => None
            end
          else if notAtomStart c then None
          else Some (quantified (Char c) r)
      end
  end.

(** [new RegExp(pattern)]: the whole pattern must be one disjunction. *)
Definition compile (pattern : string) : option regex :=
  let s := list_ascii_of_string pattern in
  match parseDisjunction (3 * List.length s + 4) s with
  | Some (r, []) => Some r
  | _ => None
  end.

(** Matching with a continuation: [k] receives the position reached and
    the input left.  [pos] is the index in the whole input, for [^]. *)
Definition Cont : Type := nat -> list ascii -> bool.

(** Iterations of a starred matcher [m]; an iteration that consumes
    nothing is not repeated. *)
Fixpoint repeatMatcher (m : nat -> list ascii -> Cont -> bool) (fuel : nat)
         (pos : nat) (s : list ascii) (k : Cont) : bool :=
  match fuel with
  | 0 => k pos s
  | S fuel' =>
      m pos s (fun p t =>
                 Nat.ltb (List.length t) (List.length s)
                 && repeatMatcher m fuel' p t k)
      || k pos s
  end.

Fixpoint matcher (r : regex) (pos : nat) (s : list ascii) (k : Cont) : bool :=
  match r with
  | Empty => k pos s
  | Char c =>
      match s with
      | x :: s' => Ascii.eqb x c && k (S pos) s'
      | [] => false
      end
  | AnyChar =>
      match s with
      | x :: s' => negb (isLineTerminator x) && k (S pos) s'
      | [] => false
      end
  | Seq a b => matcher a pos s (fun p t => matcher b p t k)
  | Alt a b => matcher a pos s k || matcher b pos s k
  | Star a => repeatMatcher (matcher a) (List.length s) pos s k
  | InputStart => Nat.eqb pos 0 && k pos s
  | InputEnd =>
      match s with
      | [] => k pos s
      | _ :: _ => false
      end
  end.

(** Try every start index from [pos] on, as [exec] does from index 0. *)
Fixpoint searchFrom (r : regex) (pos : nat) (s : list ascii) : bool :=
  matcher r pos s (fun _ _ => true)
  || match s with
     | [] => false
     | _ :: s' => searchFrom r (S pos) s'
     end.

Definition exec (r : regex) (str : string) : bool :=
  searchFrom r 0 (list_ascii_of_string str).

#[export] Instance engine : RegExpEngine :=
  {| RegExp := regex; RegExp_new := compile; RegExp_exec := exec |}.

(** What the matcher decides: [matches r p s q t] says that [r] matches the
    input [s], which starts at index [p] of the whole input, up to index
    [q], where [t] is left. *)
Inductive matches : regex -> nat -> list ascii -> nat -> list ascii -> Prop :=
| MatchEmpty p s : matches Empty p s p s
| MatchChar c p s : matches (Char c) p (c :: s) (S p) s
| MatchAnyChar x p s :
    isLineTerminator x = false -> matches AnyChar p (x :: s) (S p) s
| MatchSeq a b p s q t r u :
    matches a p s q t -> matches b q t r u -> matches (Seq a b) p s r u
| MatchAltLeft a b p s q t : matches a p s q t -> matches (Alt a b) p s q t
| MatchAltRight a b p s q t : matches b p s q t -> matches (Alt a b) p s q t
| MatchStarStop a p s : matches (Star a) p s p s
| MatchStarStep a p s q t r u :
    matches a p s q t -> matches (Star a) q t r u -> matches (Star a) p s r u
| MatchInputStart s : matches InputStart 0 s 0 s
| MatchInputEnd p : matches InputEnd p [] p [].

(** What a matcher has to do for its expression. *)
Definition decides (r : regex) (m : nat -> list ascii -> Cont -> bool) : Prop :=
  forall p s k,
    m p s k = true <-> exists q t, matches r p s q t /\ k q t = true.

End MiniRegExp.

(** ** [crypto.createHash('md5').update(data).digest('hex')]

    The MD5 digest (RFC 1321) of the UTF-8 encoding of a string, on 32-bit
    words kept in [Z] with their wrap-around written out. *)
Module Crypto.
Local Open Scope Z_scope.

Definition wrap32 (x : Z) : Z := x mod 2 ^ 32.

Definition not32 (x : Z) : Z := Z.lxor x 0xffffffff.

Definition rotl32 (x n : Z) : Z :=
  wrap32 (Z.lor (Z.shiftl x n) (Z.shiftr x (32 - n))).

(** UTF-8 bytes of a string of code units below 256. *)
Definition utf8 (s : string) : list Z :=
  flat_map (fun c =>
              let n := Z.of_N (N_of_ascii c) in
              if n <? 128 then [n]
              else [Z.lor 0xc0 (Z.shiftr n 6); Z.lor 0x80 (Z.land n 0x3f)])
           (list_ascii_of_string s).

Definition shifts : list Z :=
  [7; 12; 17; 22; 7; 12; 17; 22; 7; 12; 17; 22; 7; 12; 17; 22;
   5; 9; 14; 20; 5; 9; 14; 20; 5; 9; 14; 20; 5; 9; 14; 20;
   4; 11; 16; 23; 4; 11; 16; 23; 4; 11; 16; 23; 4; 11; 16; 23;
   6; 10; 15; 21; 6; 10; 15; 21; 6; 10; 15; 21; 6; 10; 15; 21].

Definition sines : list Z :=
  [0xd76aa478; 0xe8c7b756; 0x242070db; 0xc1bdceee;
   0xf57c0faf; 0x4787c62a; 0xa8304613; 0xfd469501;
   0x698098d8; 0x8b44f7af; 0xffff5bb1; 0x895cd7be;
   0x6b901122; 0xfd987193; 0xa679438e; 0x49b40821;
   0xf61e2562; 0xc040b340; 0x265e5a51; 0xe9b6c7aa;
   0xd62f105d; 0x02441453; 0xd8a1e681; 0xe7d3fbc8;
   0x21e1cde6; 0xc33707d6; 0xf4d50d87; 0x455a14ed;
   0xa9e3e905; 0xfcefa3f8; 0x676f02d9; 0x8d2a4c8a;
   0xfffa3942; 0x8771f681; 0x6d9d6122; 0xfde5380c;
   0xa4beea44; 0x4bdecfa9; 0xf6bb4b60; 0xbebfbc70;
   0x289b7ec6; 0xeaa127fa; 0xd4ef3085; 0x04881d05;
   0xd9d4d039; 0xe6db99e5; 0x1fa27cf8; 0xc4ac5665;
   0xf4292244; 0x432aff97; 0xab9423a7; 0xfc93a039;
   0x655b59c3; 0x8f0ccc92; 0xffeff47d; 0x85845dd1;
   0x6fa87e4f; 0xfe2ce6e0; 0xa3014314; 0x4e0811a1;
   0xf7537e82; 0xbd3af235; 0x2ad7d2bb; 0xeb86d391].

(** The message with the bit 1, zeros up to 56 modulo 64 and its length in
    bits as 8 little-endian bytes appended. *)
Definition littleEndian (count : nat) (x : Z) : list Z :=
  map (fun i => Z.land (Z.shiftr x (8 * Z.of_nat i)) 0xff) (seq 0 count).

Definition padded (msg : list Z) : list Z :=
  let len := Z.of_nat (List.length msg) in
  let zeros := Z.to_nat ((55 - len) mod 64) in
  msg ++ [0x80] ++ repeat 0 zeros ++ littleEndian 8 ((8 * len) mod 2 ^ 64).

Fixpoint word32s (count : nat) (bytes : list Z) : list Z :=
  match count with
  | O => []
  | S count' =>
      match bytes with
      | b0 :: b1 :: b2 :: b3 :: rest =>
          (b0 + 2 ^ 8 * b1 + 2 ^ 16 * b2 + 2 ^ 24 * b3) :: word32s count' rest
      | _ => []
      end
  end.

Record Digest : Type := { dA : Z; dB : Z; dC : Z; dD : Z }.

Definition initial : Digest :=
  {| dA := 0x67452301; dB := 0xefcdab89; dC := 0x98badcfe; dD := 0x10325476 |}.

Definition mix (i : nat) (b c d : Z) : Z :=
  if (i <? 16)%nat then Z.lor (Z.land b c) (Z.land (not32 b) d)
  else if (i <? 32)%nat then Z.lor (Z.land d b) (Z.land (not32 d) c)
  else if (i <? 48)%nat then Z.lxor b (Z.lxor c d)
  else Z.lxor c (Z.lor b (not32 d)).

Definition wordIndex (i : nat) : nat :=
  if (i <? 16)%nat then i
  else if (i <? 32)%nat then (5 * i + 1) mod 16
  else if (i <? 48)%nat then (3 * i + 5) mod 16
  else (7 * i) mod 16.

Definition step (block : list Z) (h : Digest) (i : nat) : Digest :=
  let f := wrap32 (mix i (dB h) (dC h) (dD h) + dA h
                   + nth i sines 0 + nth (wordIndex i) block 0) in
  {| dA := dD h;
     dB := wrap32 (dB h + rotl32 f (nth i shifts 0));
     dC := dB h;
     dD := dC h |}.

Definition compress (h : Digest) (block : list Z) : Digest :=
  let h' := fold_left (step block) (seq 0 64) h in
  {| dA := wrap32 (dA h + dA h'); dB := wrap32 (dB h + dB h');
     dC := wrap32 (dC h + dC h'); dD := wrap32 (dD h + dD h') |}.

Fixpoint blocks (count : nat) (bytes : list Z) : list (list Z) :=
  match count with
  | O => []
  | S count' => word32s 16 (firstn 64 bytes) :: blocks count' (skipn 64 bytes)
  end.

Definition digest (msg : list Z) : Digest :=
  let bytes := padded msg in
  fold_left compress (blocks (List.length bytes / 64) bytes) initial.

Definition hexDigit (n : Z) : ascii :=
  nth (Z.to_nat n) (list_ascii_of_string "0123456789abcdef") "0"%char.

Definition hexByte (b : Z) : list ascii :=
  [hexDigit (Z.shiftr b 4); hexDigit (Z.land b 0xf)].

Definition hex (h : Digest) : string :=
  string_of_list_ascii
    (flat_map hexByte
       (littleEndian 4 (dA h) ++ littleEndian 4 (dB h)
        ++ littleEndian 4 (dC h) ++ littleEndian 4 (dD h))).
End Crypto.

(** [const md5 = (data) => crypto.createHash('md5').update(data).digest('hex')] *)
Definition md5 (data : string) : string :=
  Crypto.hex (Crypto.digest (Crypto.utf8 data)).

(** ** The process environment and the module's constants *)

(** The variables of [process.env] the module reads; [None] is unset. *)
Record Env : Type := {
  NODE_ENV : option string;
  TEST_EMAIL : option string;
  APPROVED_DOMAINS : option string;
  OAUTH_STRATEGY : option string
}.

(** [const {stringTemplate: template} = require('../server/utils')]: the
    texts of the site's configuration, which lives outside this module. *)
Class ServerUtils : Type := { template : string -> string }.

(** WhiteSpace and LineTerminator code units below 256, the class [\s]. *)
Definition isWhiteSpace (c : ascii) : bool :=
  existsb (N.eqb (N_of_ascii c)) [9; 10; 11; 12; 13; 32; 160]%N.

Fixpoint splitCommaPieces (s : string) : string * list string :=
  match s with
  | EmptyString => (EmptyString, [])
  | String c s' =>
      if Ascii.eqb c ","
      then
        let (piece, pieces) :=
          splitCommaPieces
            match s' with
            | String w s'' => if isWhiteSpace w then s'' else s'
            | EmptyString => s'
            end in
        (EmptyString, piece :: pieces)
      else
        let (piece, pieces) := splitCommaPieces s' in
        (String c piece, pieces)
  end.

(** [s.split(/,\s?/g)]: cut at every comma, which takes one following
    white-space character with it. *)
Definition String_split_commas (s : string) : list string :=
  let (piece, pieces) := splitCommaPieces s in piece :: pieces.

(** What the effects of the module are recorded as, in the order they
    happen.  [CallIsAuthorized] records a call of the matcher. *)
Inductive Event : Type :=
| LogInfo (msg : string)
| LogWarn (msg : string)
| CallIsAuthorized (user : Profile.t)
| Next
| NextError (e : JSError)
| Redirect (url : string).

(** The constants the module body defines when it is loaded. *)
Record Globals : Type := {
  domains : JSSet;
  authStrategy : string;
  isSlackOauth : bool
}.

Definition authStrategies : list string := ["google"; "Slack"].

(** Lines 17 to 30 of the module body: the allow-list and the strategy.
    The registration of the strategy with passport is not part of the
    model. *)
Definition loadModule (env : Env) : Completion Globals * list Event :=
  match APPROVED_DOMAINS env with
  | None =>
      (Throw (TypeError "Cannot read properties of undefined (reading 'split')"), [])
  | Some approved =>
      let domains := Set_new (String_split_commas approved) in
      let strategy := OAUTH_STRATEGY env in
      let known :=
        match strategy with
        | Some s => existsb (String.eqb s) authStrategies
        | None => false
        end in
      if known
      then (Normal {| domains := domains;
                      authStrategy := ToString strategy;
                      isSlackOauth := String.eqb (ToString strategy) "Slack" |},
            [LogInfo "Using custom userAuth"])
      else (Normal {| domains := domains;
                      authStrategy := "google";
                      isSlackOauth := String.eqb "google" "Slack" |},
            [LogInfo "Using custom userAuth";
             LogWarn ("Invalid oauth strategy " ++ ToString strategy
                      ++ " specific, defaulting to google auth")%string])
  end.

(** ** The request *)

Module UserInfo.
Record t : Type := {
  email : option string;
  userId : option string;
  analyticsUserId : string
}.
End UserInfo.

(** An object made by an object literal: [objId] tells two objects with the
    same properties apart. *)
Record Obj (A : Type) : Type := { objId : nat; objVal : A }.

Arguments objId {A} _.
Arguments objVal {A} _.

Module Passport.
Record t : Type := { user : option Profile.t }.
End Passport.

Module Session.
Record t : Type := {
  passport : option Passport.t;
  authRedirect : option string
}.
End Session.

(** The request as the gate receives it, after the session middleware and
    passport have run: [session] is [req.session], and [user] is
    [req.user], which passport sets for an authenticated request. *)
Module Request.
Record t : Type := {
  session : Session.t;
  path : string;
  user : option Profile.t;
  userInfo : option (Obj UserInfo.t)
}.
End Request.

(** [req.isAuthenticated()], passport's test that [req.user] is set. *)
Definition isAuthenticated (req : Request.t) : bool :=
  match Request.user req with
  | Some _ => true
  | None => false
  end.

(** ** State and effects *)

Record State : Type := {
  globals : Globals;
  req : Request.t;
  nextObject : nat;
  trace : list Event
}.

Definition M (A : Type) : Type := State -> Completion A * State.

Definition ret {A : Type} (a : A) : M A := fun st => (Normal a, st).

Definition bind {A B : Type} (m : M A) (f : A -> M B) : M B :=
  fun st =>
    match m st with
    | (Normal a, st') => f a st'
    | (Throw e, st') => (Throw e, st')
    end.

Notation "x <- m ;; k" := (bind m (fun x => k))
  (at level 61, m at next level, right associativity).
Notation "m ;; k" := (bind m (fun _ => k))
  (at level 61, right associativity).

Definition liftC {A : Type} (c : Completion A) : M A := fun st => (c, st).

Definition getReq : M Request.t := fun st => (Normal (req st), st).

Definition getGlobals : M Globals := fun st => (Normal (globals st), st).

(** Updates of one field. *)
Definition withTrace (st : State) (t : list Event) : State :=
  {| globals := globals st; req := req st;
     nextObject := nextObject st; trace := t |}.

Definition withReq (st : State) (r : Request.t) : State :=
  {| globals := globals st; req := r;
     nextObject := nextObject st; trace := trace st |}.

Definition withUserInfo (r : Request.t) (o : Obj UserInfo.t) : Request.t :=
  {| Request.session := Request.session r;
     Request.path := Request.path r;
     Request.user := Request.user r;
     Request.userInfo := Some o |}.

Definition withAuthRedirect (r : Request.t) (p : string) : Request.t :=
  {| Request.session :=
       {| Session.passport := Session.passport (Request.session r);
          Session.authRedirect := Some p |};
     Request.path := Request.path r;
     Request.user := Request.user r;
     Request.userInfo := Request.userInfo r |}.

Definition emit (e : Event) : M unit :=
  fun st => (Normal tt, withTrace st (trace st ++ [e])).

(** An object literal: a new object. *)
Definition newObject {A : Type} (a : A) : M (Obj A) :=
  fun st =>
    (Normal {| objId := nextObject st; objVal := a |},
     {| globals := globals st; req := req st;
        nextObject := S (nextObject st); trace := trace st |}).

(** [req.userInfo = o] *)
Definition setReqUserInfo (o : Obj UserInfo.t) : M unit :=
  fun st => (Normal tt, withReq st (withUserInfo (req st) o)).

(** [req.session.authRedirect = p] *)
Definition setAuthRedirect (p : string) : M unit :=
  fun st => (Normal tt, withReq st (withAuthRedirect (req st) p)).

(** A computation that leaves the module's constants as they are, however
    it completes. *)
Definition keepsGlobals {A : Type} (m : M A) : Prop :=
  forall st, globals (snd (m st)) = globals st.

(** ** The identity normalizer and the gate *)

Definition isDevelopment (env : Env) : bool :=
  match NODE_ENV env with
  | Some v => String.eqb v "development"
  | None => false
  end.

Definition cannotRead (prop : string) : JSError :=
  TypeError ("Cannot read properties of undefined (reading '" ++ prop ++ "')")%string.

(** [req.session.passport.user], as the object of a read of [prop]. *)
Definition sessionPassportUser (r : Request.t) (prop : string)
  : Completion Profile.t :=
  match Session.passport (Request.session r) with
  | None => Throw (cannotRead "user")
  | Some p =>
      match Passport.user p with
      | None => Throw (cannotRead prop)
      | Some u => Normal u
      end
  end.

(** [req.session.passport.user.emails[0].value] *)
Definition firstEmailsValue (r : Request.t) : Completion (option string) :=
  match sessionPassportUser r "emails" with
  | Throw e => Throw e
  | Normal u =>
      match Profile.emails u with
      | None => Throw (cannotRead "0")
      | Some [] => Throw (cannotRead "value")
      | Some (entry :: _) => Normal (value entry)
      end
  end.

(** [req.session.passport.user.email] *)
Definition profileEmail (r : Request.t) : Completion (option string) :=
  match sessionPassportUser r "email" with
  | Throw e => Throw e
  | Normal u => Normal (Profile.email u)
  end.

(** [req.session.passport.user.id] *)
Definition profileId (r : Request.t) : Completion (option string) :=
  match sessionPassportUser r "id" with
  | Throw e => Throw e
  | Normal u => Normal (Profile.id u)
  end.

Section Gate.
Context {engine : RegExpEngine} {utils : ServerUtils}.
Variable env : Env.

(** [process.env.TEST_EMAIL || template('footer.defaultEmail')] *)
Definition developmentEmail : string :=
  match TEST_EMAIL env with
  | Some e => if String.eqb e "" then template "footer.defaultEmail" else e
  | None => template "footer.defaultEmail"
  end.

Definition setUserInfo : M unit :=
  if isDevelopment env then
    o <- newObject {| UserInfo.email := Some developmentEmail;
                      UserInfo.userId := Some "10";
                      UserInfo.analyticsUserId := md5 "10library" |} ;;
    setReqUserInfo o
  else
    g <- getGlobals ;;
    r <- getReq ;;
    email <- liftC (if isSlackOauth g then profileEmail r
                    else firstEmailsValue r) ;;
    match Request.userInfo r with
    | Some o => setReqUserInfo o
    | None =>
        userId <- liftC (profileId r) ;;
        id <- liftC (profileId r) ;;
        o <- newObject {| UserInfo.email := email;
                          UserInfo.userId := userId;
                          UserInfo.analyticsUserId :=
                            md5 (ToString id ++ "library")%string |} ;;
        setReqUserInfo o
    end.

(** A call [isAuthorized(passportUser)] from the gate, on the module's
    [domains]. *)
Definition callIsAuthorized (passportUser : Profile.t) : M JSValue :=
  emit (CallIsAuthorized passportUser) ;;
  g <- getGlobals ;;
  liftC (isAuthorized (domains g) passportUser).

(** [(req.session.passport || {}).user || {}] *)
Definition passportUserOf (r : Request.t) : Profile.t :=
  match Session.passport (Request.session r) with
  | Some p =>
      match Passport.user p with
      | Some u => u
      | None => Profile.empty
      end
  | None => Profile.empty
  end.

(** The middleware of lines 142 to 157. *)
Definition authGate : M unit :=
  r <- getReq ;;
  let isDev := isDevelopment env in
  let passportUser := passportUserOf r in
  allowed <- (if isDev then ret true
              else if isAuthenticated r
                   then v <- callIsAuthorized passportUser ;; ret (truthy v)
                   else ret false) ;;
  if (allowed : bool) then
    setUserInfo ;;
    emit Next
  else
    denied <- (if isAuthenticated r
               then v <- callIsAuthorized passportUser ;; ret (negb (truthy v))
               else ret false) ;;
    if (denied : bool) then
      emit (NextError (Error "Unauthorized"))
    else
      emit (LogInfo "User not authenticated") ;;
      r' <- getReq ;;
      setAuthRedirect (Request.path r') ;;
      emit (Redirect "/login").

(** The last handler of the callback route [/auth/redirect], after passport
    has authenticated: [res.redirect(req.session.authRedirect || '/')]. *)
Definition authCallback : M unit :=
  r <- getReq ;;
  emit (Redirect match Session.authRedirect (Request.session r) with
                 | Some p => if String.eqb p "" then "/" else p
                 | None => "/"
                 end).
End Gate.

(** ** Notions used to state the properties *)

(** [req.session.passport.user], when the session has one. *)
Definition sessionProfile (r : Request.t) : option Profile.t :=
  match Session.passport (Request.session r) with
  | Some p => Passport.user p
  | None => None
  end.

(** The email as the spec describes it for each provider: Slack has
    [profile.email], Google has [profile.emails[0].value]. *)
Definition providerEmail (slack : bool) (u : Profile.t) : option string :=
  if slack then Profile.email u
  else match Profile.emails u with
       | Some (entry :: _) => value entry
       | _ => None
       end.

(** The profile has what the active provider's email is read from. *)
Definition hasProviderEmail (slack : bool) (u : Profile.t) : bool :=
  slack || negb (noEmailEntries u).

(** The properties of the [userInfo] attached to a request, without the
    identity of the object that holds them. *)
Definition userInfoOf (st : State) : option UserInfo.t :=
  option_map objVal (Request.userInfo (req st)).

Definition analyticsUserIdOf (st : State) : option string :=
  option_map UserInfo.analyticsUserId (userInfoOf st).

(** ** Sample data for closed examples *)

(** Texts of a site whose footer email is configured. *)
Definition sampleUtils : ServerUtils :=
  {| template := fun key =>
                   if String.eqb key "footer.defaultEmail"
                   then "library@example.com" else "" |}.

Definition productionEnv (approved : string) : Env :=
  {| NODE_ENV := Some "production";
     TEST_EMAIL := None;
     APPROVED_DOMAINS := Some approved;
     OAUTH_STRATEGY := Some "google" |}.

Definition developmentEnv (approved : string) : Env :=
  {| NODE_ENV := Some "development";
     TEST_EMAIL := Some "dev@example.com";
     APPROVED_DOMAINS := Some approved;
     OAUTH_STRATEGY := Some "google" |}.

(** A request for [path] whose session holds [profile], before the gate. *)
Definition requestOf (path : string) (profile : option Profile.t) : Request.t :=
  {| Request.session :=
       {| Session.passport :=
            match profile with
            | Some u => Some {| Passport.user := Some u |}
            | None => None
            end;
          Session.authRedirect := None |};
     Request.path := path;
     Request.user := profile;
     Request.userInfo := None |}.

Definition initialState (g : Globals) (r : Request.t) : State :=
  {| globals := g; req := r; nextObject := 0; trace := [] |}.

Definition googleGlobals (domains : JSSet) : Globals :=
  {| domains := domains; authStrategy := "google"; isSlackOauth := false |}.

(** ** Notions used to state further properties *)

(** [pieces.join(sep)] *)
Fixpoint String_join (sep : string) (pieces : list string) : string :=
  match pieces with
  | [] => EmptyString
  | p :: rest =>
      match rest with
      | [] => p
      | _ :: _ => (p ++ sep ++ String_join sep rest)%string
      end
  end.

Definition startsWithWhiteSpace (s : string) : bool :=
  match s with
  | String c _ => isWhiteSpace c
  | EmptyString => false
  end.

(** How often the character occurs in the string. *)
Fixpoint String_count (c : ascii) (s : string) : nat :=
  match s with
  | EmptyString => 0
  | String x s' => (if Ascii.eqb x c then 1 else 0) + String_count c s'
  end.

(** The one white-space character a comma takes with it. *)
Definition skipWhiteSpace (s : string) : string :=
  match s with
  | String w s' => if isWhiteSpace w then s' else s
  | EmptyString => s
  end.

Definition withoutComma (p : string) : bool := negb (String_includes "," p).

(** A pattern written like a domain or an address: characters without a
    meaning of their own in a pattern, and dots. *)
Definition plainChar (c : ascii) : bool :=
  negb (MiniRegExp.isSyntaxCharacter c) || Ascii.eqb c ".".

Definition plainPattern (p : string) : bool :=
  forallb plainChar (list_ascii_of_string p).

(** The expression such a pattern stands for. *)
Fixpoint chainOf (l : list ascii) : MiniRegExp.regex :=
  match l with
  | [] => MiniRegExp.Empty
  | c :: r =>
      MiniRegExp.Seq
        (if Ascii.eqb c "." then MiniRegExp.AnyChar else MiniRegExp.Char c)
        (chainOf r)
  end.

(** The events by which the gate answers a request. *)
Definition isResponse (e : Event) : bool :=
  match e with
  | Next | NextError _ | Redirect _ => true
  | _ => false
  end.

Definition noResponse (evs : list Event) : bool :=
  forallb (fun e => negb (isResponse e)) evs.

(** The email [setUserInfo] reads in production (line 180). *)
Definition readEmail (g : Globals) (r : Request.t) : Completion (option string) :=
  if isSlackOauth g then profileEmail r else firstEmailsValue r.

(** The state after the gate has let a request without session through to
    the login. *)
Definition redirectedToLogin (st : State) : State :=
  withTrace (withReq st (withAuthRedirect (req st) (Request.path (req st))))
            (trace st ++ [LogInfo "User not authenticated"; Redirect "/login"]).

(** The state after an object for [info] has been made and attached. *)
Definition attached (st : State) (info : UserInfo.t) : State :=
  {| globals := globals st;
     req := withUserInfo (req st) {| objId := nextObject st; objVal := info |};
     nextObject := S (nextObject st);
     trace := trace st |}.

Definition isLowerHexDigit (c : ascii) : bool :=
  existsb (Ascii.eqb c) (list_ascii_of_string "0123456789abcdef").

(** ** The session middleware (lines 57 to 113)

    The first middleware of the router builds, for each request, a session
    middleware on the Datastore and calls it; when anything in that fails
    it builds and calls one on the default memory store.  The libraries it
    calls are outside this module: what matters of each call is whether it
    throws, which is what the fields of [Libraries] tell. *)
Module SessionStore.

(** The variables of [process.env] this middleware reads. *)
Record Env : Type := {
  GCP_PROJECT_ID : option string;
  SESSION_SECRET : option string
}.

(** [{email, key}], what [getAuth()] resolves to. *)
Record Credentials : Type := {
  email : option string;
  key : option string
}.

(** The argument of [new Datastore(...)]. *)
Record Datastore : Type := {
  projectId : string;
  client_email : option string;
  private_key : option string
}.

(** The argument of [new DatastoreStore(...)]; [dataset] is [null] when
    there is no client. *)
Record DatastoreStore : Type := {
  kind : string;
  dataset : option Datastore;
  expirationMs : Z
}.

Record Cookie : Type := {
  maxAge : Z;
  sameSite : string;
  httpOnly : bool
}.

(** The argument of [session(...)]; an option that is not given is
    [None]. *)
Record Options : Type := {
  store : option DatastoreStore;
  cookie : option Cookie;
  secret : option string;
  resave : bool;
  rolling : option bool;
  saveUninitialized : bool
}.

Class Libraries : Type := {
  (** [await getAuth()] *)
  getAuth : Completion Credentials;
  (** the error [new Datastore(config)] throws, if it does *)
  Datastore_new : Datastore -> option JSError;
  (** the error [new DatastoreStore(options)] throws, if it does *)
  DatastoreStore_new : DatastoreStore -> option JSError;
  (** the error [session(options)] throws, if it does *)
  session_new : Options -> option JSError;
  (** the error the middleware throws when called with the request *)
  session_run : Options -> option JSError
}.

Inductive Event : Type :=
| Warn (msg : string)
| GetAuth
| RunSession (options : Options).

Definition Run (A : Type) : Type := Completion A * list Event.

Section Middleware.
Context {libraries : Libraries}.
Variable env : Env.

Definition getDatastoreClient : Run (option Datastore) :=
  let projectId :=
    match GCP_PROJECT_ID env with
    | Some p => if String.eqb p "" then None else Some p
    | None => None
    end in
  match projectId with
  | None =>
      (Normal None,
       [Warn "No GCP_PROJECT_ID provided! Will not connect to GCloud Datastore!"])
  | Some p =>
      match getAuth with
      | Throw e => (Throw e, [GetAuth])
      | Normal credentials =>
          let client := {| projectId := p;
                           client_email := email credentials;
                           private_key := key credentials |} in
          match Datastore_new client with
          | Some e => (Throw e, [GetAuth])
          | None => (Normal (Some client), [GetAuth])
          end
      end
  end.

Definition serverExpiration : Z := 1000 * 60 * 60 * 24 * 7.
Definition cookieExpiration : Z := 1000 * 60 * 60 * 24 * 365.

Definition datastoreOptions (client : option Datastore) : Options :=
  {| store := Some {| kind := "express-sessions";
                      dataset := client;
                      expirationMs := serverExpiration |};
     cookie := Some {| maxAge := cookieExpiration;
                       sameSite := "lax";
                       httpOnly := true |};
     secret := SESSION_SECRET env;
     resave := true;
     rolling := Some true;
     saveUninitialized := false |}.

Definition memoryOptions : Options :=
  {| store := None;
     cookie := None;
     secret := SESSION_SECRET env;
     resave := true;
     rolling := None;
     saveUninitialized := true |}.

(** [session(options)(req, res, next)] *)
Definition runSession (options : Options) : Run unit :=
  match session_new options with
  | Some e => (Throw e, [])
  | None =>
      match session_run options with
      | Some e => (Throw e, [RunSession options])
      | None => (Normal tt, [RunSession options])
      end
  end.

(** The body of the [try]. *)
Definition datastoreSession : Run unit :=
  match getDatastoreClient with
  | (Throw e, evs) => (Throw e, evs)
  | (Normal client, evs) =>
      match DatastoreStore_new {| kind := "express-sessions";
                                  dataset := client;
                                  expirationMs := serverExpiration |} with
      | Some e => (Throw e, evs)
      | None =>
          let (done, evs') := runSession (datastoreOptions client) in
          (done, evs ++ evs')
      end
  end.

(** The middleware: the [try] and its [catch]. *)
Definition sessionMiddleware : Run unit :=
  match datastoreSession with
  | (Normal tt, evs) => (Normal tt, evs)
  | (Throw _, evs) =>
      let (done, evs') := runSession memoryOptions in
      (done, evs ++ Warn "Failed to load datastore" :: evs')
  end.
End Middleware.
End SessionStore.

(** Libraries for closed examples: no credentials can be had, and the
    Datastore store refuses a missing dataset. *)
Definition offlineLibraries : SessionStore.Libraries :=
  {| SessionStore.getAuth := Throw (Error "Could not load the default credentials");
     SessionStore.Datastore_new := fun _ => None;
     SessionStore.DatastoreStore_new :=
       fun options =>
         match SessionStore.dataset options with
         | None => Some (Error "No dataset provided to Datastore Session.")
         | Some _ => None
         end;
     SessionStore.session_new := fun _ => None;
     SessionStore.session_run := fun _ => None |}.

(** The same, with session middlewares that throw when called. *)
Definition brokenLibraries : SessionStore.Libraries :=
  {| SessionStore.getAuth := Throw (Error "Could not load the default credentials");
     SessionStore.Datastore_new := fun _ => None;
     SessionStore.DatastoreStore_new := fun _ => None;
     SessionStore.session_new := fun _ => None;
     SessionStore.session_run := fun _ => Some (Error "session failed") |}.

(** * Properties *)

(** ** Splitting an email at ['@'] *)

Lemma String_split_cons (sep c : ascii) (s : string) :
  String_split sep (String c s)
  = if Ascii.eqb c sep then EmptyString :: String_split sep s
    else match String_split sep s with
         | piece :: pieces => String c piece :: pieces
         | [] => []
         end.
Proof.
  unfold String_split. simpl.
  destruct (splitPieces sep s) as [piece pieces].
  destruct (Ascii.eqb c sep); reflexivity.
Qed.

Lemma String_split_nonempty (sep : ascii) (s : string) :
  String_split sep s <> [].
Proof.
  unfold String_split. destruct (splitPieces sep s). discriminate.
Qed.

Lemma String_split_without (sep : ascii) (s : string) :
  String_includes sep s = false -> String_split sep s = [s].
Proof.
  induction s as [|c s IH]; simpl; intros H.
  - reflexivity.
  - apply orb_false_elim in H as [Hc Hs].
    rewrite String_split_cons, Hc, (IH Hs). reflexivity.
Qed.

Lemma String_split_with (sep : ascii) (s : string) :
  String_includes sep s = true ->
  exists piece next pieces, String_split sep s = piece :: next :: pieces.
Proof.
  induction s as [|c s IH]; simpl; intros H.
  - discriminate.
  - rewrite String_split_cons.
    destruct (Ascii.eqb c sep) eqn:Hc.
    + destruct (String_split sep s) as [|p ps] eqn:Hs.
      * now apply String_split_nonempty in Hs.
      * now exists EmptyString, p, ps.
    + simpl in H. destruct (IH H) as (p & n & ps & ->).
      now exists (String c p), n, ps.
Qed.

Lemma String_includes_app (sep : ascii) (pre suf : string) :
  String_includes sep (pre ++ String sep suf)%string = true.
Proof.
  induction pre as [|c pre IH]; simpl.
  - now rewrite Ascii.eqb_refl.
  - rewrite IH. apply orb_true_r.
Qed.

Lemma last_String_split_app (sep : ascii) (pre suf : string) :
  last (String_split sep (pre ++ String sep suf)%string) EmptyString
  = last (String_split sep suf) EmptyString.
Proof.
  induction pre as [|c pre IH]; simpl String.append.
  - rewrite String_split_cons, Ascii.eqb_refl.
    destruct (String_split sep suf) eqn:Hs; [|reflexivity].
    now apply String_split_nonempty in Hs.
  - rewrite String_split_cons.
    destruct (String_split_with sep _ (String_includes_app sep pre suf))
      as (p & n & ps & Hs).
    rewrite Hs in *. destruct (Ascii.eqb c sep); exact IH.
Qed.

Lemma Array_slice_last_last {A : Type} (arr : list A) (d : A) :
  arr <> [] -> Array_slice_last arr = [last arr d].
Proof.
  unfold Array_slice_last.
  induction arr as [|x arr IH]; intros Hne; [contradiction|].
  destruct arr as [|y arr]; [reflexivity|].
  replace (List.length (x :: y :: arr) - 1) with (S (List.length (y :: arr) - 1))
    by (simpl; lia).
  change (skipn (S (List.length (y :: arr) - 1)) (x :: y :: arr))
    with (skipn (List.length (y :: arr) - 1) (y :: arr)).
  rewrite IH by discriminate. reflexivity.
Qed.

Lemma userDomainOf_last (userEmail : string) :
  userDomainOf userEmail = last (String_split "@" userEmail) EmptyString.
Proof.
  unfold userDomainOf.
  rewrite (Array_slice_last_last _ EmptyString (String_split_nonempty _ _)).
  reflexivity.
Qed.

(** C3 (as the code has it): the domain the matcher uses is what follows
    the last ['@'] of the email, and the whole email when it has no ['@']:
    for [suf] without ['@'], both [pre@suf] and [suf] itself give [suf]. *)
Theorem userDomainOf_after_last_at (pre suf : string) :
  String_includes "@" suf = false ->
  userDomainOf (pre ++ String "@" suf)%string = suf
  /\ userDomainOf suf = suf.
Proof.
  intros Hsuf. rewrite !userDomainOf_last, last_String_split_app.
  rewrite (String_split_without _ _ Hsuf). split; reflexivity.
Qed.

Lemma userDomainOf_after_last_at_witness :
  String_includes "@" "example.com" = false
  /\ userDomainOf "ops@corp@example.com" = "example.com"
  /\ userDomainOf "example.com" = "example.com".
Proof.
  split; [reflexivity|].
  apply (userDomainOf_after_last_at "ops@corp" "example.com"). reflexivity.
Defined.

(** C3 (as the spec words it) fails: an email without ['@'] does not give
    the empty domain. *)
Lemma userDomainOf_without_at_not_empty :
  String_includes "@" "localhost" = false
  /\ userDomainOf "localhost" = "localhost"
  /\ userDomainOf "localhost" <> "".
Proof.
  repeat split; try reflexivity. discriminate.
Qed.

(** ** The domain matcher *)

Lemma Set_has_In (s : JSSet) (x : string) : Set_has s x = true <-> In x s.
Proof.
  unfold Set_has. rewrite existsb_exists. split.
  - intros (y & Hy & Heq). apply String.eqb_eq in Heq. now subst.
  - intros H. exists x. split; [assumption | apply String.eqb_refl].
Qed.

Lemma firstEmailValue_first (id email : option string) (E : string)
      (rest : list EmailEntry) :
  firstEmailValue {| Profile.id := id; Profile.email := email;
                     Profile.emails := Some ({| value := Some E |} :: rest) |}
  = E.
Proof. reflexivity. Qed.

Lemma firstEmailValue_noEmailEntries (user : Profile.t) :
  noEmailEntries user = true -> firstEmailValue user = "".
Proof.
  unfold noEmailEntries, firstEmailValue.
  destruct (Profile.emails user) as [[|e l]|]; [reflexivity|discriminate|reflexivity].
Qed.

Section DomainMatcherFacts.
Context {engine : RegExpEngine}.

Lemma String_match_wellFormed (str pattern : string) :
  wellFormed pattern = true ->
  String_match str pattern = Normal (regexMatches pattern str).
Proof.
  unfold wellFormed, String_match, regexMatches.
  destruct (RegExp_new pattern); [reflexivity|discriminate].
Qed.

(** On well-formed patterns the loop finds a match iff there is one. *)
Lemma checkRegexLoop_wellFormed (userDomain : string) (l : list string) :
  forallb wellFormed l = true ->
  checkRegexLoop userDomain l
  = if existsb (fun p => regexMatches p userDomain) l
    then Normal (JSBool true) else Normal JSUndefined.
Proof.
  induction l as [|p l IH]; simpl; intros Hwf; [reflexivity|].
  apply andb_prop in Hwf as [Hp Hl].
  rewrite (String_match_wellFormed _ _ Hp).
  destruct (regexMatches p userDomain); simpl; [reflexivity|exact (IH Hl)].
Qed.

(** The loop stops with a SyntaxError at an ill-formed pattern that no
    match precedes. *)
Lemma checkRegexLoop_throws (userDomain bad : string) (before after : list string) :
  forallb wellFormed before = true ->
  existsb (fun p => regexMatches p userDomain) before = false ->
  wellFormed bad = false ->
  exists msg,
    checkRegexLoop userDomain (before ++ bad :: after) = Throw (SyntaxError msg).
Proof.
  intros Hwf Hno Hbad.
  induction before as [|p l IH]; simpl in *.
  - unfold String_match, wellFormed in *.
    destruct (RegExp_new bad); [discriminate|]. eauto.
  - apply andb_prop in Hwf as [Hp Hl]. apply orb_false_elim in Hno as [Hnp Hnl].
    rewrite (String_match_wellFormed _ _ Hp), Hnp. auto.
Qed.

Lemma listed_iff (S : JSSet) (E : string) :
  listed S E = true
  <-> In (userDomainOf E) S \/ In E S
      \/ exists p, In p S /\ regexMatches p (userDomainOf E) = true.
Proof.
  unfold listed. rewrite !orb_true_iff, !Set_has_In, existsb_exists. tauto.
Qed.

Lemma isAuthorized_wellFormed (S : JSSet) (user : Profile.t) :
  forallb wellFormed S = true ->
  isAuthorized S user
  = if listed S (firstEmailValue user)
    then Normal (JSBool true) else Normal JSUndefined.
Proof.
  intros Hwf. unfold isAuthorized, listed, checkRegexEmail, Array_from, jsOr.
  destruct (Set_has S (userDomainOf (firstEmailValue user))); simpl; [reflexivity|].
  destruct (Set_has S (firstEmailValue user)); simpl; [reflexivity|].
  exact (checkRegexLoop_wellFormed _ _ Hwf).
Qed.

(** In general the loop answers [true] iff some element matches and every
    element before it is well-formed. *)
Lemma checkRegexLoop_true_iff (userDomain : string) (l : list string) :
  checkRegexLoop userDomain l = Normal (JSBool true)
  <-> exists before p after,
      l = before ++ p :: after
      /\ forallb wellFormed before = true
      /\ regexMatches p userDomain = true.
Proof.
  induction l as [|x l IH]; simpl.
  - split; [discriminate|]. intros (before & p & after & Heq & _).
    now destruct before.
  - unfold String_match. destruct (RegExp_new x) as [re|] eqn:Hx.
    + destruct (RegExp_exec re userDomain) eqn:Hre.
      * split; [|reflexivity]. intros _. exists [], x, l.
        unfold regexMatches. now rewrite Hx.
      * rewrite IH. split.
        -- intros (before & p & after & -> & Hwf & Hp).
           exists (x :: before), p, after. simpl. unfold wellFormed at 1.
           now rewrite Hx.
        -- intros (before & p & after & Heq & Hwf & Hp).
           destruct before as [|y before]; simpl in Heq; injection Heq as <- ->.
           ++ unfold regexMatches in Hp. rewrite Hx in Hp. congruence.
           ++ simpl in Hwf. apply andb_prop in Hwf as [_ Hwf].
              exists before, p, after. auto.
    + split; [discriminate|].
      intros (before & p & after & Heq & Hwf & Hp).
      destruct before as [|y before]; simpl in Heq; injection Heq as <- ->.
      * unfold regexMatches in Hp. now rewrite Hx in Hp.
      * simpl in Hwf. unfold wellFormed at 1 in Hwf. now rewrite Hx in Hwf.
Qed.

(** A literal hit is found before any pattern is compiled. *)
Lemma isAuthorized_literal (S : JSSet) (user : Profile.t) :
  Set_has S (userDomainOf (firstEmailValue user)) = true
  \/ Set_has S (firstEmailValue user) = true ->
  isAuthorized S user = Normal (JSBool true).
Proof.
  unfold isAuthorized, jsOr. intros [H|H]; rewrite H; simpl; [reflexivity|].
  destruct (Set_has S (userDomainOf (firstEmailValue user))); reflexivity.
Qed.

(** For every set: [true] iff a literal hit, or a matching element that
    only well-formed elements precede. *)
Lemma isAuthorized_true_iff (S : JSSet) (user : Profile.t) :
  isAuthorized S user = Normal (JSBool true)
  <-> In (userDomainOf (firstEmailValue user)) S
      \/ In (firstEmailValue user) S
      \/ exists before p after,
          S = before ++ p :: after
          /\ forallb wellFormed before = true
          /\ regexMatches p (userDomainOf (firstEmailValue user)) = true.
Proof.
  rewrite <- !Set_has_In, <- checkRegexLoop_true_iff.
  unfold isAuthorized, checkRegexEmail, Array_from, jsOr.
  destruct (Set_has S (userDomainOf (firstEmailValue user))); simpl; [tauto|].
  destruct (Set_has S (firstEmailValue user)); simpl; [tauto|].
  intuition discriminate.
Qed.

Lemma isAuthorizedInOrder_source (S : JSSet) (user : Profile.t) :
  isAuthorizedInOrder DomainLiteral EmailLiteral RegexSearch S user
  = isAuthorized S user.
Proof. reflexivity. Qed.

(** On well-formed patterns any order of the checks gives a value, truthy
    exactly when one of the three checks succeeds. *)
Lemma isAuthorizedInOrder_wellFormed (c1 c2 c3 : Check) (S : JSSet) (user : Profile.t) :
  forallb wellFormed S = true ->
  isOrder c1 c2 c3 = true ->
  exists v, isAuthorizedInOrder c1 c2 c3 S user = Normal v
            /\ truthy v = listed S (firstEmailValue user).
Proof.
  intros Hwf Hord.
  unfold isAuthorizedInOrder, runCheck, checkRegexEmail, Array_from, listed.
  rewrite (checkRegexLoop_wellFormed _ _ Hwf).
  destruct c1, c2, c3; try discriminate Hord; unfold jsOr;
    destruct (Set_has S (userDomainOf (firstEmailValue user)));
    destruct (Set_has S (firstEmailValue user));
    destruct (existsb _ S); simpl; eauto.
Qed.

(** C1 (as the code has it): when every element of the set is a
    well-formed pattern, [isAuthorized] returns [true] iff the domain of
    the first email is an element, or the email is, or some element is a
    pattern found in the domain; in every other case it returns
    [undefined]; and the three checks taken in any order give a value of
    the same truthiness. *)
Theorem isAuthorized_true_iff_listed (S : JSSet) (user : Profile.t) :
  forallb wellFormed S = true ->
  let E := firstEmailValue user in
  let D := userDomainOf E in
  (isAuthorized S user = Normal (JSBool true)
   <-> In D S \/ In E S \/ exists p, In p S /\ regexMatches p D = true)
  /\ (isAuthorized S user <> Normal (JSBool true) ->
      isAuthorized S user = Normal JSUndefined)
  /\ (forall c1 c2 c3,
         isOrder c1 c2 c3 = true ->
         exists v w,
           isAuthorizedInOrder c1 c2 c3 S user = Normal v
           /\ isAuthorized S user = Normal w
           /\ truthy v = truthy w).
Proof.
  intros Hwf E D. subst E D.
  rewrite <- listed_iff, (isAuthorized_wellFormed S user Hwf).
  destruct (listed S (firstEmailValue user)) eqn:Hl; repeat split;
    try congruence; try discriminate.
  - intros c1 c2 c3 Hord.
    destruct (isAuthorizedInOrder_wellFormed c1 c2 c3 S user Hwf Hord) as (v & Hv & Ht).
    exists v, (JSBool true). rewrite Hl in Ht. auto.
  - intros c1 c2 c3 Hord.
    destruct (isAuthorizedInOrder_wellFormed c1 c2 c3 S user Hwf Hord) as (v & Hv & Ht).
    exists v, JSUndefined. rewrite Hl in Ht. auto.
Qed.

(** C2 (as the code has it): on a set of well-formed patterns a profile
    without email entries never makes [isAuthorized] throw; it is
    authorized exactly when the set holds the empty string or a pattern
    that matches the empty string, and gets [undefined] otherwise. *)
Theorem isAuthorized_without_email (S : JSSet) (user : Profile.t) :
  noEmailEntries user = true ->
  forallb wellFormed S = true ->
  isAuthorized S user
  = if Set_has S "" || existsb (fun p => regexMatches p "") S
    then Normal (JSBool true) else Normal JSUndefined.
Proof.
  intros Hno Hwf.
  rewrite (isAuthorized_wellFormed S user Hwf), (firstEmailValue_noEmailEntries _ Hno).
  unfold listed. change (userDomainOf "") with "".
  now rewrite orb_diag.
Qed.
End DomainMatcherFacts.

(** *** On the engine of the fragment *)

Example regexp_search_not_full_match :
  @regexMatches MiniRegExp.engine "example.com" "notexample.com.evil.org" = true
  /\ @regexMatches MiniRegExp.engine "example.com" "exampleXcom" = true
  /\ @regexMatches MiniRegExp.engine "^example\.com$" "notexample.com" = false
  /\ @regexMatches MiniRegExp.engine "^(corp|lab)\.example\.(org|net)$" "lab.example.net" = true
  /\ @regexMatches MiniRegExp.engine "" "anything" = true.
Proof. repeat split; reflexivity. Qed.

Example regexp_ill_formed :
  map (@wellFormed MiniRegExp.engine)
      ["c++dev@example.com"; "*.example.com"; "("; ")"; "a**"; "^*"; "\"]
  = [false; false; false; false; false; false; false].
Proof. reflexivity. Qed.

(** With the search first, a profile that is not listed gets [false]
    where the source's order gives [undefined]: the same truthiness. *)
Example isAuthorizedInOrder_value :
  @isAuthorizedInOrder MiniRegExp.engine RegexSearch DomainLiteral EmailLiteral
    ["example.com"] (googleProfile "1" "ann@other.com") = Normal (JSBool false)
  /\ @isAuthorized MiniRegExp.engine
       ["example.com"] (googleProfile "1" "ann@other.com") = Normal JSUndefined.
Proof. split; reflexivity. Qed.

Lemma isAuthorized_true_iff_listed_witness :
  let S := ["example.com"; "^(corp|lab)\.example\.(org|net)$"] in
  let user := googleProfile "1" "ann@lab.example.net" in
  forallb (@wellFormed MiniRegExp.engine) S = true
  /\ @isAuthorized MiniRegExp.engine S user = Normal (JSBool true).
Proof.
  intros S user.
  split; [reflexivity|].
  apply (@isAuthorized_true_iff_listed MiniRegExp.engine S user); [reflexivity|].
  right. right. exists "^(corp|lab)\.example\.(org|net)$".
  split; [simpl; auto | reflexivity].
Defined.

(** C1 (as the spec words it) fails in three ways.  A profile that is not
    listed gets [undefined], not [false].  An element that is ill-formed as
    a pattern, here an email address with [++], makes the call throw,
    although a later element matches the domain.  And with such an element
    the order of the checks decides between [true] and a SyntaxError. *)
Lemma isAuthorized_not_as_specified :
  let ann := googleProfile "1" "ann@mail.example.org" in
  (@isAuthorized MiniRegExp.engine ["example.com"] ann = Normal JSUndefined
   /\ @isAuthorized MiniRegExp.engine ["example.com"] ann <> Normal (JSBool false))
  /\ (In "example\.(com|org)$" ["c++dev@example.com"; "example\.(com|org)$"]
      /\ @regexMatches MiniRegExp.engine "example\.(com|org)$"
           (userDomainOf "ann@mail.example.org") = true
      /\ @isAuthorized MiniRegExp.engine
           ["c++dev@example.com"; "example\.(com|org)$"] ann
         = Throw (SyntaxError "Invalid regular expression: /c++dev@example.com/"))
  /\ (@isAuthorizedInOrder MiniRegExp.engine DomainLiteral EmailLiteral RegexSearch
        ["c++dev@example.com"; "mail.example.org"] ann = Normal (JSBool true)
      /\ @isAuthorizedInOrder MiniRegExp.engine RegexSearch DomainLiteral EmailLiteral
           ["c++dev@example.com"; "mail.example.org"] ann
         = Throw (SyntaxError "Invalid regular expression: /c++dev@example.com/")).
Proof.
  intros ann. repeat split; try reflexivity.
  - discriminate.
  - simpl; auto.
Qed.

Lemma isAuthorized_without_email_witness :
  noEmailEntries Profile.empty = true
  /\ forallb (@wellFormed MiniRegExp.engine) ["example.com"; "ann@example.org"] = true
  /\ @isAuthorized MiniRegExp.engine ["example.com"; "ann@example.org"] Profile.empty
     = Normal JSUndefined.
Proof.
  split; [reflexivity|]. split; [reflexivity|].
  rewrite (@isAuthorized_without_email MiniRegExp.engine
             ["example.com"; "ann@example.org"] Profile.empty);
    reflexivity.
Defined.

(** C2 (as the spec words it) fails: with the non-empty set [{".*"}] the
    profile without email entries is authorized, and with an element that
    is ill-formed as a pattern the call throws. *)
Lemma isAuthorized_without_email_authorized :
  [".*"] <> []
  /\ noEmailEntries Profile.empty = true
  /\ @regexMatches MiniRegExp.engine ".*" "" = true
  /\ @isAuthorized MiniRegExp.engine [".*"] Profile.empty = Normal (JSBool true)
  /\ @isAuthorized MiniRegExp.engine ["c++dev@example.com"] Profile.empty
     = Throw (SyntaxError "Invalid regular expression: /c++dev@example.com/").
Proof.
  repeat split; try reflexivity. discriminate.
Qed.

(** ** The engine of the fragment decides its matching relation *)

Section MiniRegExpFacts.
Import MiniRegExp.

(** A match consumes a prefix of the input and counts its characters. *)
Lemma matches_prefix {r : regex} {p q : nat} {s t : list ascii} :
  matches r p s q t -> exists pre, s = pre ++ t /\ q = p + List.length pre.
Proof.
  induction 1 as [p s|c p s|x p s _|a b p s q t r u _ IHa _ IHb
                  |a b p s q t _ IH|a b p s q t _ IH
                  |a p s|a p s q t r u _ IHa _ IHb|s|p].
  - exists []. split; [reflexivity | simpl; lia].
  - exists [c]. split; [reflexivity | simpl; lia].
  - exists [x]. split; [reflexivity | simpl; lia].
  - destruct IHa as (pre1 & -> & ->), IHb as (pre2 & -> & ->).
    exists (pre1 ++ pre2). rewrite <- app_assoc, length_app. split; [reflexivity | lia].
  - exact IH.
  - exact IH.
  - exists []. split; [reflexivity | simpl; lia].
  - destruct IHa as (pre1 & -> & ->), IHb as (pre2 & -> & ->).
    exists (pre1 ++ pre2). rewrite <- app_assoc, length_app. split; [reflexivity | lia].
  - exists []. split; [reflexivity | simpl; lia].
  - exists []. split; [reflexivity | simpl; lia].
Qed.

(** An iteration that consumes nothing ends where it started. *)
Lemma matches_no_progress {r : regex} {p q : nat} {s t : list ascii} :
  matches r p s q t -> List.length s <= List.length t -> q = p /\ t = s.
Proof.
  intros Hm Hlen. destruct (matches_prefix Hm) as (pre & -> & ->).
  rewrite length_app in Hlen. destruct pre as [|x pre]; [|simpl in Hlen; lia].
  split; [simpl; lia | reflexivity].
Qed.

Lemma repeatMatcher_sound {a : regex} {m : nat -> list ascii -> Cont -> bool} :
  decides a m ->
  forall fuel p s k,
    repeatMatcher m fuel p s k = true ->
    exists q t, matches (Star a) p s q t /\ k q t = true.
Proof.
  intros Hm. induction fuel as [|fuel IH]; intros p s k; simpl.
  - intros Hk. exists p, s. split; [constructor | assumption].
  - rewrite orb_true_iff. intros [Hstep | Hk].
    + apply Hm in Hstep as (q & t & Ha & Hrest).
      apply andb_prop in Hrest as [_ Hrest].
      apply IH in Hrest as (r & u & Hstar & Hk).
      exists r, u. split; [econstructor; eassumption | assumption].
    + exists p, s. split; [constructor | assumption].
Qed.

Lemma repeatMatcher_complete {a : regex} {m : nat -> list ascii -> Cont -> bool} :
  decides a m ->
  forall {r0 p s q t},
    matches r0 p s q t ->
    r0 = Star a ->
    forall fuel k,
      List.length s <= fuel -> k q t = true ->
      repeatMatcher m fuel p s k = true.
Proof.
  intros Hm r0 p s q t Hstar.
  induction Hstar as [| | | | | |a' p s|a' p s q t r u Ha _ Hrest IH| |];
    intros Heq; try discriminate Heq; injection Heq as ->; intros fuel k Hfuel Hk.
  - destruct fuel; simpl; [assumption | rewrite Hk; apply orb_true_r].
  - destruct (Nat.ltb (List.length t) (List.length s)) eqn:Hlt.
    + apply Nat.ltb_lt in Hlt.
      destruct fuel as [|fuel]; [lia|]. simpl.
      apply orb_true_iff. left. apply Hm. exists q, t. split; [assumption|].
      apply andb_true_intro. split; [now apply Nat.ltb_lt|].
      apply IH; [reflexivity | lia | assumption].
    + apply Nat.ltb_ge in Hlt.
      destruct (matches_no_progress Ha Hlt) as [-> ->].
      apply IH; [reflexivity | assumption | assumption].
Qed.

Lemma matcher_decides (r : regex) : decides r (matcher r).
Proof.
  induction r as [|c| |a IHa b IHb|a IHa b IHb|a IHa| |]; intros p s k; simpl.
  - split.
    + intros Hk. exists p, s. split; [constructor | assumption].
    + intros (q & t & Hm & Hk). inversion Hm; subst. assumption.
  - split.
    + destruct s as [|x s]; [discriminate|]. intros H.
      apply andb_prop in H as [Hx Hk]. apply Ascii.eqb_eq in Hx as ->.
      exists (S p), s. split; [constructor | assumption].
    + intros (q & t & Hm & Hk). inversion Hm; subst.
      now rewrite Ascii.eqb_refl.
  - split.
    + destruct s as [|x s]; [discriminate|]. intros H.
      apply andb_prop in H as [Hx Hk]. apply negb_true_iff in Hx.
      exists (S p), s. split; [now constructor | assumption].
    + intros (q & t & Hm & Hk). inversion Hm; subst.
      apply andb_true_intro. split; [now apply negb_true_iff | assumption].
  - split.
    + intros H. apply IHa in H as (q & t & Ha & H).
      apply IHb in H as (r & u & Hb & Hk).
      exists r, u. split; [econstructor; eassumption | assumption].
    + intros (q & t & Hm & Hk). inversion Hm; subst.
      apply IHa. do 2 eexists. split; [eassumption|].
      apply IHb. do 2 eexists. split; eassumption.
  - rewrite orb_true_iff. split.
    + intros [H|H]; [apply IHa in H | apply IHb in H];
        destruct H as (q & t & Hm & Hk); exists q, t;
        (split; [|assumption]); [now apply MatchAltLeft | now apply MatchAltRight].
    + intros (q & t & Hm & Hk). inversion Hm; subst;
        [left; apply IHa | right; apply IHb]; eauto.
  - split.
    + apply (repeatMatcher_sound IHa).
    + intros (q & t & Hm & Hk).
      apply (repeatMatcher_complete IHa Hm eq_refl); [apply le_n | assumption].
  - split.
    + intros H. apply andb_prop in H as [Hp Hk]. apply Nat.eqb_eq in Hp as ->.
      exists 0, s. split; [constructor | assumption].
    + intros (q & t & Hm & Hk). inversion Hm; subst. assumption.
  - split.
    + destruct s; [|discriminate]. intros Hk.
      exists p, []. split; [constructor | assumption].
    + intros (q & t & Hm & Hk). inversion Hm; subst. assumption.
Qed.

Lemma searchFrom_spec (r : regex) (s : list ascii) (p : nat) :
  searchFrom r p s = true
  <-> exists pre rest q t,
      s = pre ++ rest /\ matches r (p + List.length pre) rest q t.
Proof.
  revert p. induction s as [|x s IH]; intros p; simpl; rewrite orb_true_iff.
  - split.
    + intros [H|H]; [|discriminate].
      apply matcher_decides in H as (q & t & Hm & _).
      exists [], [], q, t. simpl. rewrite Nat.add_0_r. auto.
    + intros (pre & rest & q & t & Heq & Hm).
      symmetry in Heq. apply app_eq_nil in Heq as [-> ->].
      simpl in Hm. rewrite Nat.add_0_r in Hm.
      left. apply matcher_decides. eauto.
  - split.
    + intros [H|H].
      * apply matcher_decides in H as (q & t & Hm & _).
        exists [], (x :: s), q, t. simpl. rewrite Nat.add_0_r. auto.
      * apply IH in H as (pre & rest & q & t & -> & Hm).
        exists (x :: pre), rest, q, t. split; [reflexivity|].
        simpl. now rewrite Nat.add_succ_r.
    + intros (pre & rest & q & t & Heq & Hm). destruct pre as [|y pre].
      * simpl in *. subst rest. rewrite Nat.add_0_r in Hm.
        left. apply matcher_decides. eauto.
      * injection Heq as <- ->. right. apply IH.
        exists pre, rest, q, t. split; [reflexivity|].
        simpl in Hm. now rewrite Nat.add_succ_r in Hm.
Qed.

(** Search, not full match: [exec] succeeds iff the expression matches
    some substring [mid] of the input, at the place where it stands. *)
Theorem exec_spec (r : regex) (str : string) :
  exec r str = true
  <-> exists pre mid post,
      list_ascii_of_string str = pre ++ mid ++ post
      /\ matches r (List.length pre) (mid ++ post)
                 (List.length pre + List.length mid) post.
Proof.
  unfold exec. rewrite searchFrom_spec. split.
  - intros (pre & rest & q & t & Heq & Hm).
    destruct (matches_prefix Hm) as (mid & -> & ->).
    exists pre, mid, t. auto.
  - intros (pre & mid & post & Heq & Hm). eauto 10.
Qed.

(** *** The parser does not run out of fuel *)

Lemma skipLazy_length (s : list ascii) :
  List.length (skipLazy s) <= List.length s.
Proof.
  destruct s as [|c r]; simpl; [lia|]. destruct (Ascii.eqb c "?"); simpl; lia.
Qed.

Lemma quantified_length (a : regex) (s : list ascii) :
  List.length (snd (quantified a s)) <= List.length s.
Proof.
  destruct s as [|c r]; simpl; [lia|].
  pose proof (skipLazy_length r).
  repeat match goal with |- context [if ?b then _ else _] => destruct b end;
    simpl; lia.
Qed.

(** What is left after a term is shorter than the input; after an
    alternative or a disjunction it is not longer. *)
Lemma parse_length (fuel : nat) :
  (forall s t r, parseTerm fuel s = Some (t, r) -> List.length r < List.length s)
  /\ (forall s a r, parseAlternative fuel s = Some (a, r) ->
                    List.length r <= List.length s)
  /\ (forall s d r, parseDisjunction fuel s = Some (d, r) ->
                    List.length r <= List.length s).
Proof.
  induction fuel as [|fuel (IHt & IHa & IHd)];
    [repeat split; intros; discriminate|].
  repeat split.
  - intros s t r. simpl. destruct s as [|c s]; [discriminate|].
    pose proof (fun a => quantified_length a s) as Hq.
    destruct (Ascii.eqb c "^"); [intros [= <- <-]; simpl; lia|].
    destruct (Ascii.eqb c "$"); [intros [= <- <-]; simpl; lia|].
    destruct (Ascii.eqb c ".").
    { specialize (Hq AnyChar). destruct (quantified AnyChar s).
      intros [= <- <-]. simpl in *. lia. }
    destruct (Ascii.eqb c "(").
    { destruct s as [|q s']; [discriminate|].
      destruct (Ascii.eqb q "?"); [discriminate|].
      destruct (parseDisjunction fuel (q :: s')) as [[d [|p r']]|] eqn:Hd;
        try discriminate.
      destruct (Ascii.eqb p ")"); [|discriminate].
      apply IHd in Hd. pose proof (quantified_length d r') as Hq'.
      destruct (quantified d r'). intros [= <- <-]. simpl in *. lia. }
    destruct (Ascii.eqb c "\").
    { destruct s as [|e s']; [discriminate|].
      destruct (isSyntaxCharacter e); [|discriminate].
      pose proof (quantified_length (Char e) s') as Hq'.
      destruct (quantified (Char e) s'). intros [= <- <-]. simpl in *. lia. }
    destruct (notAtomStart c); [discriminate|].
    specialize (Hq (Char c)). destruct (quantified (Char c) s).
    intros [= <- <-]. simpl in *. lia.
  - intros s a r. simpl. destruct s as [|c s]; [intros [= <- <-]; simpl; lia|].
    destruct (Ascii.eqb c "|" || Ascii.eqb c ")"); [intros [= <- <-]; lia|].
    destruct (parseTerm fuel (c :: s)) as [[t r1]|] eqn:Ht; [|discriminate].
    destruct (parseAlternative fuel r1) as [[a1 r2]|] eqn:Ha; [|discriminate].
    apply IHt in Ht. apply IHa in Ha. intros [= <- <-]. lia.
  - intros s d r. simpl.
    destruct (parseAlternative fuel s) as [[a [|c r1]]|] eqn:Ha; try discriminate.
    + intros [= <- <-]. simpl. lia.
    + apply IHa in Ha. simpl in Ha. destruct (Ascii.eqb c "|").
      * destruct (parseDisjunction fuel r1) as [[d1 r2]|] eqn:Hd; [|discriminate].
        apply IHd in Hd. intros [= <- <-]. lia.
      * intros [= <- <-]. simpl. lia.
Qed.

(** With three units of fuel for each character and three more, the result
    no longer depends on the fuel: a pattern is rejected for what it is. *)
Lemma parse_stable (n : nat) :
  forall s,
    List.length s <= n ->
    (forall f1 f2, 3 * List.length s + 1 <= f1 -> 3 * List.length s + 1 <= f2 ->
                   parseTerm f1 s = parseTerm f2 s)
    /\ (forall f1 f2, 3 * List.length s + 2 <= f1 -> 3 * List.length s + 2 <= f2 ->
                      parseAlternative f1 s = parseAlternative f2 s)
    /\ (forall f1 f2, 3 * List.length s + 3 <= f1 -> 3 * List.length s + 3 <= f2 ->
                      parseDisjunction f1 s = parseDisjunction f2 s).
Proof.
  induction n as [|n IH]; intros s Hlen.
  - destruct s; [|simpl in Hlen; lia]. repeat split; intros f1 f2 H1 H2;
      destruct f1 as [|f1]; destruct f2 as [|f2]; simpl in *; try lia; try reflexivity.
    destruct f1 as [|f1]; destruct f2 as [|f2]; simpl in *; try lia; reflexivity.
  - assert (Hterm : forall f1 f2,
               3 * List.length s + 1 <= f1 -> 3 * List.length s + 1 <= f2 ->
               parseTerm f1 s = parseTerm f2 s).
    { intros f1 f2 H1 H2.
      destruct f1 as [|f1]; destruct f2 as [|f2]; try lia.
      simpl. destruct s as [|c s]; [reflexivity|]. simpl in Hlen, H1, H2.
      destruct (IH s ltac:(lia)) as (_ & _ & Hd).
      rewrite (Hd f1 f2) by lia. reflexivity. }
    assert (Halt : forall f1 f2,
               3 * List.length s + 2 <= f1 -> 3 * List.length s + 2 <= f2 ->
               parseAlternative f1 s = parseAlternative f2 s).
    { intros f1 f2 H1 H2.
      destruct f1 as [|f1]; destruct f2 as [|f2]; try lia.
      simpl. destruct s as [|c s]; [reflexivity|].
      rewrite (Hterm f1 f2) by lia.
      destruct (parseTerm f2 (c :: s)) as [[t r]|] eqn:Ht; [|reflexivity].
      apply parse_length in Ht. simpl in Hlen, Ht, H1, H2.
      destruct (IH r ltac:(lia)) as (_ & Ha & _).
      rewrite (Ha f1 f2) by lia. reflexivity. }
    split; [exact Hterm|]. split; [exact Halt|].
    intros f1 f2 H1 H2.
    destruct f1 as [|f1]; destruct f2 as [|f2]; try lia.
    simpl. rewrite (Halt f1 f2) by lia.
    destruct (parseAlternative f2 s) as [[a [|c r]]|] eqn:Ha; try reflexivity.
    apply parse_length in Ha. simpl in Ha.
    destruct (IH r ltac:(lia)) as (_ & _ & Hd).
    rewrite (Hd f1 f2) by lia. reflexivity.
Qed.

Lemma compile_fuel (pattern : string) (fuel : nat) :
  3 * List.length (list_ascii_of_string pattern) + 4 <= fuel ->
  compile pattern
  = match parseDisjunction fuel (list_ascii_of_string pattern) with
    | Some (r, []) => Some r
    | _ => None
    end.
Proof.
  intros Hfuel. unfold compile.
  destruct (parse_stable _ _ (le_n (List.length (list_ascii_of_string pattern))))
    as (_ & _ & Hd).
  rewrite (Hd _ fuel) by lia. reflexivity.
Qed.

(** The catch-all pattern is found in every string, the empty one
    included. *)
Lemma catch_all_matches (str : string) : regexMatches ".*" str = true.
Proof.
  change (exec (Seq (Star AnyChar) Empty) str = true).
  apply exec_spec. exists [], [], (list_ascii_of_string str).
  split; [reflexivity|]. simpl.
  apply MatchSeq with (q := 0) (t := list_ascii_of_string str); constructor.
Qed.

(** So an allow-list that holds it lets every profile through. *)
Lemma catch_all_authorizes (user : Profile.t) :
  isAuthorized [".*"] user = Normal (JSBool true).
Proof.
  apply isAuthorized_true_iff. right. right. exists [], ".*", [].
  repeat split. apply catch_all_matches.
Qed.
End MiniRegExpFacts.

(** ** The gate *)

Create HintDb globals.

Section GateFacts.
Context {engine : RegExpEngine} {utils : ServerUtils}.
Variable env : Env.

Lemma developmentEmail_override (e : string) :
  TEST_EMAIL env = Some e -> e <> "" -> developmentEmail env = e.
Proof.
  unfold developmentEmail. intros -> Hne.
  destruct (String.eqb_spec e ""); [contradiction|reflexivity].
Qed.

Lemma developmentEmail_default :
  TEST_EMAIL env = None \/ TEST_EMAIL env = Some "" ->
  developmentEmail env = template "footer.defaultEmail".
Proof. unfold developmentEmail. intros [-> | ->]; reflexivity. Qed.

(** The synthetic identity of development mode. *)
Lemma setUserInfo_development (st : State) :
  isDevelopment env = true ->
  setUserInfo env st
  = (Normal tt,
     {| globals := globals st;
        req := withUserInfo (req st)
                 {| objId := nextObject st;
                    objVal := {| UserInfo.email := Some (developmentEmail env);
                                 UserInfo.userId := Some "10";
                                 UserInfo.analyticsUserId := md5 "10library" |} |};
        nextObject := S (nextObject st);
        trace := trace st |}).
Proof. unfold setUserInfo. intros ->. reflexivity. Qed.


(** C5: without the development flag, a request that is not authenticated
    gets its path stored as [authRedirect] in the session and is
    redirected to [/login]; no identity is attached and the matcher is
    not called. *)
Theorem authGate_unauthenticated (st : State) :
  isDevelopment env = false ->
  isAuthenticated (req st) = false ->
  authGate env st
  = (Normal tt,
     {| globals := globals st;
        req := {| Request.session :=
                    {| Session.passport := Session.passport (Request.session (req st));
                       Session.authRedirect := Some (Request.path (req st)) |};
                  Request.path := Request.path (req st);
                  Request.user := Request.user (req st);
                  Request.userInfo := Request.userInfo (req st) |};
        nextObject := nextObject st;
        trace := trace st ++ [LogInfo "User not authenticated"; Redirect "/login"] |}).
Proof.
  intros Hdev Hauth. unfold authGate, bind, getReq, ret. rewrite Hdev, Hauth.
  unfold emit, setAuthRedirect, withReq, withTrace, withAuthRedirect. simpl.
  now rewrite <- app_assoc.
Qed.

Lemma callIsAuthorized_run (user : Profile.t) (st : State) :
  callIsAuthorized user st
  = (isAuthorized (domains (globals st)) user,
     withTrace st (trace st ++ [CallIsAuthorized user])).
Proof. reflexivity. Qed.

(** When the matcher throws, so does the gate, at its first call. *)
Lemma authGate_matcher_throws (st : State) (e : JSError) :
  isDevelopment env = false ->
  isAuthenticated (req st) = true ->
  isAuthorized (domains (globals st)) (passportUserOf (req st)) = Throw e ->
  authGate env st
  = (Throw e,
     withTrace st (trace st ++ [CallIsAuthorized (passportUserOf (req st))])).
Proof.
  intros Hdev Hauth Hres.
  unfold authGate, bind, getReq, ret. rewrite Hdev, Hauth.
  now rewrite callIsAuthorized_run, Hres.
Qed.

(** C4 (as the code has it): without the development flag, for an
    authenticated request whose profile the matcher does not accept: when
    the matcher returns, a falsy value, the request is handed to the error
    handler with [Error('Unauthorized')], after two calls of the matcher;
    when the matcher throws, the gate throws that error at the first call
    and hands nothing on.  Either way nothing is redirected and the
    request, with its [userInfo] and its session, stays as it was. *)
Theorem authGate_unauthorized (st : State) :
  isDevelopment env = false ->
  isAuthenticated (req st) = true ->
  (forall v,
      isAuthorized (domains (globals st)) (passportUserOf (req st)) = Normal v ->
      truthy v = false ->
      authGate env st
      = (Normal tt,
         withTrace st
           (trace st ++ [CallIsAuthorized (passportUserOf (req st));
                         CallIsAuthorized (passportUserOf (req st));
                         NextError (Error "Unauthorized")])))
  /\ (forall e,
         isAuthorized (domains (globals st)) (passportUserOf (req st)) = Throw e ->
         authGate env st
         = (Throw e,
            withTrace st
              (trace st ++ [CallIsAuthorized (passportUserOf (req st))]))).
Proof.
  intros Hdev Hauth. split.
  - intros v Hres Hv.
    unfold authGate, bind, getReq, ret. rewrite Hdev, Hauth.
    rewrite callIsAuthorized_run, Hres, Hv.
    rewrite callIsAuthorized_run. cbn [globals withTrace]. rewrite Hres, Hv.
    unfold emit, withTrace. cbn. now rewrite <- !app_assoc.
  - intros e Hres. exact (authGate_matcher_throws st e Hdev Hauth Hres).
Qed.

(** When the matcher accepts, the gate goes on to [setUserInfo] and
    [next()]. *)
Lemma authGate_authorized (st : State) (v : JSValue) :
  isDevelopment env = false ->
  isAuthenticated (req st) = true ->
  isAuthorized (domains (globals st)) (passportUserOf (req st)) = Normal v ->
  truthy v = true ->
  authGate env st
  = (setUserInfo env ;; emit Next)
      (withTrace st (trace st ++ [CallIsAuthorized (passportUserOf (req st))])).
Proof.
  intros Hdev Hauth Hres Hv.
  unfold authGate. unfold bind at 1. unfold getReq. rewrite Hdev, Hauth.
  unfold bind at 1. unfold bind at 1.
  now rewrite callIsAuthorized_run, Hres, Hv.
Qed.

(** *** The identity normalizer in production *)

Lemma sessionPassportUser_profile (r : Request.t) (u : Profile.t) (prop : string) :
  sessionProfile r = Some u -> sessionPassportUser r prop = Normal u.
Proof.
  unfold sessionProfile, sessionPassportUser.
  destruct (Session.passport (Request.session r)) as [p|]; [|discriminate].
  now intros ->.
Qed.

Lemma providerEmail_read (r : Request.t) (u : Profile.t) (slack : bool) :
  sessionProfile r = Some u ->
  hasProviderEmail slack u = true ->
  (if slack then profileEmail r else firstEmailsValue r)
  = Normal (providerEmail slack u).
Proof.
  intros Hu Hhas. unfold profileEmail, firstEmailsValue, providerEmail.
  rewrite !(fun prop => sessionPassportUser_profile r u prop Hu).
  destruct slack; [reflexivity|].
  unfold hasProviderEmail, noEmailEntries in Hhas. simpl in Hhas.
  destruct (Profile.emails u) as [[|entry rest]|]; try discriminate. reflexivity.
Qed.

Lemma setUserInfo_production_run (st : State) (u : Profile.t) :
  isDevelopment env = false ->
  Request.userInfo (req st) = None ->
  sessionProfile (req st) = Some u ->
  hasProviderEmail (isSlackOauth (globals st)) u = true ->
  setUserInfo env st
  = (Normal tt,
     {| globals := globals st;
        req := withUserInfo (req st)
                 {| objId := nextObject st;
                    objVal :=
                      {| UserInfo.email := providerEmail (isSlackOauth (globals st)) u;
                         UserInfo.userId := Profile.id u;
                         UserInfo.analyticsUserId :=
                           md5 (ToString (Profile.id u) ++ "library")%string |} |};
        nextObject := S (nextObject st);
        trace := trace st |}).
Proof.
  intros Hdev Hnone Hu Hhas. unfold setUserInfo. rewrite Hdev.
  unfold bind, getGlobals, getReq, liftC.
  rewrite (providerEmail_read _ u _ Hu Hhas), Hnone.
  unfold profileId. rewrite (sessionPassportUser_profile _ _ _ Hu). reflexivity.
Qed.

(** C8 (as the code has it): in production, for a request that has no
    [userInfo] yet and whose session profile has what the active provider
    keeps the email in, [setUserInfo] attaches the profile's [id] as
    [userId], the provider's email, and as [analyticsUserId] the MD5, in
    hex, of the UTF-8 bytes of the id followed by "library"; two
    computations for profiles with the same id give the same
    [analyticsUserId]. *)
Theorem setUserInfo_production (st : State) (u : Profile.t) :
  isDevelopment env = false ->
  Request.userInfo (req st) = None ->
  sessionProfile (req st) = Some u ->
  hasProviderEmail (isSlackOauth (globals st)) u = true ->
  setUserInfo env st
  = (Normal tt,
     {| globals := globals st;
        req := withUserInfo (req st)
                 {| objId := nextObject st;
                    objVal :=
                      {| UserInfo.email := providerEmail (isSlackOauth (globals st)) u;
                         UserInfo.userId := Profile.id u;
                         UserInfo.analyticsUserId :=
                           Crypto.hex
                             (Crypto.digest
                                (Crypto.utf8
                                   (ToString (Profile.id u) ++ "library")%string)) |} |};
        nextObject := S (nextObject st);
        trace := trace st |})
  /\ forall (st' : State) (u' : Profile.t),
      Request.userInfo (req st') = None ->
      sessionProfile (req st') = Some u' ->
      hasProviderEmail (isSlackOauth (globals st')) u' = true ->
      Profile.id u' = Profile.id u ->
      analyticsUserIdOf (snd (setUserInfo env st'))
      = analyticsUserIdOf (snd (setUserInfo env st)).
Proof.
  intros Hdev Hnone Hu Hhas. split.
  - exact (setUserInfo_production_run st u Hdev Hnone Hu Hhas).
  - intros st' u' Hnone' Hu' Hhas' Hid.
    rewrite (setUserInfo_production_run st u Hdev Hnone Hu Hhas).
    rewrite (setUserInfo_production_run st' u' Hdev Hnone' Hu' Hhas').
    unfold analyticsUserIdOf, userInfoOf. simpl. now rewrite Hid.
Qed.

(** *** Calling the normalizer again *)

(** In production a request that already has a [userInfo] keeps that very
    object, provided the email can be read. *)
Lemma setUserInfo_production_cached (st : State) (o : Obj UserInfo.t) :
  isDevelopment env = false ->
  Request.userInfo (req st) = Some o ->
  setUserInfo env st = (Normal tt, st)
  \/ exists e, setUserInfo env st = (Throw e, st).
Proof.
  intros Hdev Hsome. unfold setUserInfo. rewrite Hdev.
  unfold bind, getGlobals, getReq, liftC.
  destruct (if isSlackOauth (globals st) then profileEmail (req st)
            else firstEmailsValue (req st)) as [email|e].
  - left. rewrite Hsome. unfold setReqUserInfo, withReq, withUserInfo.
    destruct st as [g r n t]; destruct r as [sess path user ui]; simpl in *.
    now subst ui.
  - right. now exists e.
Qed.

(** After a call that returned, in production the request has a
    [userInfo] and the email can still be read. *)
Lemma setUserInfo_production_returns (st st1 : State) :
  isDevelopment env = false ->
  setUserInfo env st = (Normal tt, st1) ->
  (exists o, Request.userInfo (req st1) = Some o)
  /\ forall e, setUserInfo env st1 <> (Throw e, st1).
Proof.
  intros Hdev. unfold setUserInfo. rewrite Hdev.
  unfold bind, getGlobals, getReq, liftC.
  destruct st as [g r n t]; destruct r as [sess path user ui]; simpl.
  destruct (if isSlackOauth g
            then profileEmail {| Request.session := sess; Request.path := path;
                                 Request.user := user; Request.userInfo := ui |}
            else firstEmailsValue {| Request.session := sess; Request.path := path;
                                     Request.user := user; Request.userInfo := ui |})
    as [email|e] eqn:Hemail; [|discriminate].
  assert (Hread : forall ui',
             (if isSlackOauth g
              then profileEmail {| Request.session := sess; Request.path := path;
                                   Request.user := user; Request.userInfo := ui' |}
              else firstEmailsValue {| Request.session := sess; Request.path := path;
                                       Request.user := user; Request.userInfo := ui' |})
             = Normal email) by exact (fun _ => Hemail).
  destruct ui as [o|].
  - intros [= <-]. split; [simpl; eauto|].
    intros e. unfold setReqUserInfo, newObject, withReq, withUserInfo.
    cbn [globals req Request.session Request.path Request.user Request.userInfo].
    rewrite (Hread (Some o)). discriminate.
  - destruct (profileId _) as [uid|e] eqn:Hid; [|discriminate].
    intros [= <-]. split; [simpl; eauto|].
    intros e. unfold setReqUserInfo, newObject, withReq, withUserInfo.
    cbn [globals req Request.session Request.path Request.user Request.userInfo].
    rewrite Hread. discriminate.
Qed.

(** C7 (as the code has it): after a call of [setUserInfo] that returned,
    a second call returns too and leaves a [userInfo] with the same
    properties; in production it is the same object and nothing else
    changes, the cached value being kept; in development mode it is a new
    object, made by the second call, that holds them. *)
Theorem setUserInfo_twice (st st1 : State) :
  setUserInfo env st = (Normal tt, st1) ->
  exists st2,
    setUserInfo env st1 = (Normal tt, st2)
    /\ userInfoOf st2 = userInfoOf st1
    /\ (isDevelopment env = false -> st2 = st1)
    /\ (isDevelopment env = true ->
        exists o1 o2,
          Request.userInfo (req st1) = Some o1
          /\ Request.userInfo (req st2) = Some o2
          /\ objId o2 = nextObject st1
          /\ objId o2 <> objId o1
          /\ objVal o2 = objVal o1
          /\ nextObject st2 = S (nextObject st1)).
Proof.
  intros Hrun. destruct (isDevelopment env) eqn:Hdev.
  - rewrite (setUserInfo_development st Hdev) in Hrun. injection Hrun as <-.
    eexists. split; [apply (setUserInfo_development _ Hdev)|].
    split; [reflexivity|]. split; [discriminate|]. intros _.
    do 2 eexists. split; [reflexivity|]. split; [reflexivity|]. simpl.
    repeat split. apply Nat.neq_succ_diag_l.
  - destruct (setUserInfo_production_returns st st1 Hdev Hrun) as [[o Ho] Hnothrow].
    destruct (setUserInfo_production_cached st1 o Hdev Ho) as [Hsame|[e He]].
    + exists st1. repeat split; auto. discriminate.
    + now apply Hnothrow in He.
Qed.

(** *** The module's constants *)

Lemma keepsGlobals_ret {A : Type} (a : A) : keepsGlobals (ret a).
Proof. intros st. reflexivity. Qed.

Lemma keepsGlobals_liftC {A : Type} (c : Completion A) : keepsGlobals (liftC c).
Proof. intros st. reflexivity. Qed.

Lemma keepsGlobals_bind {A B : Type} (m : M A) (f : A -> M B) :
  keepsGlobals m -> (forall a, keepsGlobals (f a)) -> keepsGlobals (bind m f).
Proof.
  intros Hm Hf st. unfold bind. specialize (Hm st).
  destruct (m st) as [[a|e] st']; simpl in *; [|assumption].
  now rewrite Hf.
Qed.

Lemma keepsGlobals_if {A : Type} (b : bool) (m1 m2 : M A) :
  keepsGlobals m1 -> keepsGlobals m2 -> keepsGlobals (if b then m1 else m2).
Proof. now destruct b. Qed.

Lemma keepsGlobals_emit (e : Event) : keepsGlobals (emit e).
Proof. intros st. reflexivity. Qed.

Lemma keepsGlobals_getReq : keepsGlobals getReq.
Proof. intros st. reflexivity. Qed.

Lemma keepsGlobals_getGlobals : keepsGlobals getGlobals.
Proof. intros st. reflexivity. Qed.

Lemma keepsGlobals_newObject {A : Type} (a : A) : keepsGlobals (newObject a).
Proof. intros st. reflexivity. Qed.

Lemma keepsGlobals_setReqUserInfo (o : Obj UserInfo.t) :
  keepsGlobals (setReqUserInfo o).
Proof. intros st. reflexivity. Qed.

Lemma keepsGlobals_setAuthRedirect (p : string) :
  keepsGlobals (setAuthRedirect p).
Proof. intros st. reflexivity. Qed.

#[local] Hint Resolve keepsGlobals_ret keepsGlobals_liftC keepsGlobals_emit
     keepsGlobals_getReq keepsGlobals_getGlobals keepsGlobals_newObject
     keepsGlobals_setReqUserInfo keepsGlobals_setAuthRedirect : globals.

Ltac keeps :=
  repeat first
    [ apply keepsGlobals_bind; [|intros ?]
    | apply keepsGlobals_if
    | solve [auto with globals]
    | match goal with |- keepsGlobals (match ?x with _ => _ end) => destruct x end ].

Lemma keepsGlobals_setUserInfo : keepsGlobals (setUserInfo env).
Proof. unfold setUserInfo. keeps. Qed.

Lemma keepsGlobals_callIsAuthorized (user : Profile.t) :
  keepsGlobals (callIsAuthorized user).
Proof. unfold callIsAuthorized. keeps. Qed.

Lemma keepsGlobals_authCallback : keepsGlobals authCallback.
Proof. unfold authCallback. keeps. Qed.

Lemma keepsGlobals_authGate : keepsGlobals (authGate env).
Proof.
  pose proof keepsGlobals_setUserInfo. pose proof keepsGlobals_callIsAuthorized.
  unfold authGate. keeps.
Qed.
End GateFacts.

(** ** The allow-list *)

Lemma Set_add_In (s : JSSet) (x y : string) :
  In y (Set_add s x) <-> In y s \/ y = x.
Proof.
  unfold Set_add. destruct (Set_has s x) eqn:Hx.
  - apply Set_has_In in Hx. split; [auto|]. intros [H| ->]; assumption.
  - rewrite in_app_iff. simpl. intuition congruence.
Qed.

Lemma Set_add_NoDup (s : JSSet) (x : string) : NoDup s -> NoDup (Set_add s x).
Proof.
  intros Hs. unfold Set_add. destruct (Set_has s x) eqn:Hx; [assumption|].
  apply NoDup_app; [assumption | repeat constructor; intros [] |].
  intros y Hy [<-|[]]. apply Set_has_In in Hy. congruence.
Qed.

Lemma fold_Set_add_In (l : list string) (s : JSSet) (y : string) :
  In y (fold_left Set_add l s) <-> In y s \/ In y l.
Proof.
  revert s. induction l as [|x l IH]; intros s; simpl.
  - tauto.
  - rewrite IH, Set_add_In. intuition congruence.
Qed.

Lemma fold_Set_add_NoDup (l : list string) (s : JSSet) :
  NoDup s -> NoDup (fold_left Set_add l s).
Proof.
  revert s. induction l as [|x l IH]; intros s Hs; simpl; [assumption|].
  apply IH, Set_add_NoDup, Hs.
Qed.

(** [new Set(l)] has the elements of [l], each once. *)
Lemma Set_new_In (l : list string) (y : string) : In y (Set_new l) <-> In y l.
Proof. unfold Set_new. rewrite fold_Set_add_In. simpl. tauto. Qed.

Lemma Set_new_NoDup (l : list string) : NoDup (Set_new l).
Proof. apply fold_Set_add_NoDup. constructor. Qed.

Lemma Set_new_cons (x : string) (l : list string) :
  exists d ds, Set_new (x :: l) = d :: ds.
Proof.
  destruct (Set_new (x :: l)) as [|d ds] eqn:Hs; [|eauto].
  assert (H : In x (Set_new (x :: l))) by (apply Set_new_In; now left).
  rewrite Hs in H. destruct H.
Qed.

Lemma String_split_commas_cons (s : string) :
  exists piece pieces, String_split_commas s = piece :: pieces.
Proof.
  unfold String_split_commas. destruct (splitCommaPieces s). eauto.
Qed.

Example String_split_commas_examples :
  String_split_commas "example.com, ann@example.org,.*\.example\.net"
  = ["example.com"; "ann@example.org"; ".*\.example\.net"]
  /\ String_split_commas "a,  b" = ["a"; " b"]
  /\ String_split_commas "a," = ["a"; ""]
  /\ String_split_commas "" = [""].
Proof. repeat split; reflexivity. Qed.

(** C9: the allow-list is built when the module is loaded, from the
    comma-separated value of the configuration: without that value loading
    throws, and with it the set is the one of the pieces of the value and
    has an element; neither the gate nor the normalizer changes the
    module's constants afterwards, however they complete. *)
Theorem domains_loaded_nonempty_kept :
  (forall env : Env,
      match APPROVED_DOMAINS env with
      | None => exists msg, loadModule env = (Throw (TypeError msg), [])
      | Some approved =>
          exists g evs d ds,
            loadModule env = (Normal g, evs)
            /\ domains g = Set_new (String_split_commas approved)
            /\ domains g = d :: ds
      end)
  /\ (forall (engine : RegExpEngine) (utils : ServerUtils) (env : Env),
         keepsGlobals (authGate env)
         /\ keepsGlobals (setUserInfo env)
         /\ keepsGlobals authCallback).
Proof.
  split.
  - intros env. unfold loadModule.
    destruct (APPROVED_DOMAINS env) as [approved|]; [|eauto].
    destruct (String_split_commas_cons approved) as (piece & pieces & Hsplit).
    destruct (Set_new_cons piece pieces) as (d & ds & Hset).
    rewrite Hsplit, Hset.
    destruct (match OAUTH_STRATEGY env with
              | Some s => existsb (String.eqb s) authStrategies
              | None => false
              end); do 4 eexists; repeat split; reflexivity.
  - intros engine utils env. split; [|split].
    + apply keepsGlobals_authGate.
    + apply keepsGlobals_setUserInfo.
    + apply keepsGlobals_authCallback.
Qed.

(** ** MD5 *)

(** The test suite of RFC 1321, in part, and the digest of development
    mode. *)
Example md5_test_suite :
  md5 "" = "d41d8cd98f00b204e9800998ecf8427e"
  /\ md5 "abc" = "900150983cd24fb0d6963f7d28e17f72"
  /\ md5 "message digest" = "f96b697d7cb7938d525a2f31aaf161d0"
  /\ md5 "12345678901234567890123456789012345678901234567890123456789012345678901234567890"
     = "57edf4a22be3c955ac49da2e2107b67a".
Proof. repeat split; vm_compute; reflexivity. Qed.

Example md5_10library : md5 "10library" = "b803c0f4c737779239234926e8f07cca".
Proof. vm_compute. reflexivity. Qed.

(** ** Scenarios *)

Example loadModule_production :
  loadModule (productionEnv "example.com, ann@example.org")
  = (Normal (googleGlobals ["example.com"; "ann@example.org"]),
     [LogInfo "Using custom userAuth"]).
Proof. reflexivity. Qed.

Example loadModule_unknown_strategy :
  loadModule {| NODE_ENV := None; TEST_EMAIL := None;
                APPROVED_DOMAINS := Some "example.com";
                OAUTH_STRATEGY := Some "slack" |}
  = (Normal (googleGlobals ["example.com"]),
     [LogInfo "Using custom userAuth";
      LogWarn "Invalid oauth strategy slack specific, defaulting to google auth"]).
Proof. reflexivity. Qed.

(** Scenario A: a listed domain goes through with the profile's identity. *)
Example scenario_authorized :
  @authGate MiniRegExp.engine sampleUtils (productionEnv "example.com")
    (initialState (googleGlobals ["example.com"])
       (requestOf "/dashboard" (Some (googleProfile "117" "a@example.com"))))
  = (Normal tt,
     {| globals := googleGlobals ["example.com"];
        req := withUserInfo
                 (requestOf "/dashboard" (Some (googleProfile "117" "a@example.com")))
                 {| objId := 0;
                    objVal := {| UserInfo.email := Some "a@example.com";
                                 UserInfo.userId := Some "117";
                                 UserInfo.analyticsUserId := md5 "117library" |} |};
        nextObject := 1;
        trace := [CallIsAuthorized (googleProfile "117" "a@example.com"); Next] |}).
Proof. reflexivity. Qed.

(** Scenario B. *)
Lemma authGate_unauthorized_witness :
  let env := productionEnv "example.com" in
  let user := googleProfile "117" "a@other.com" in
  let st := initialState (googleGlobals ["example.com"])
              (requestOf "/dashboard" (Some user)) in
  isDevelopment env = false
  /\ isAuthenticated (req st) = true
  /\ @isAuthorized MiniRegExp.engine (domains (globals st)) (passportUserOf (req st))
     = Normal JSUndefined
  /\ @authGate MiniRegExp.engine sampleUtils env st
     = (Normal tt,
        withTrace st [CallIsAuthorized user; CallIsAuthorized user;
                      NextError (Error "Unauthorized")]).
Proof.
  intros env user st.
  split; [reflexivity|]. split; [reflexivity|]. split; [reflexivity|].
  apply (proj1 (@authGate_unauthorized MiniRegExp.engine sampleUtils env st
                  eq_refl eq_refl) JSUndefined);
    reflexivity.
Defined.

(** C4 (as the spec words it) fails where the matcher throws: with an
    element that is ill-formed as a pattern in the set, the authenticated
    profile is not accepted, yet no authorization failure reaches the error
    handler; the gate throws the SyntaxError of its first call of the
    matcher. *)
Lemma authGate_unauthorized_matcher_throws :
  let env := productionEnv "c++dev@example.com" in
  let user := googleProfile "117" "a@other.com" in
  let st := initialState (googleGlobals ["c++dev@example.com"])
              (requestOf "/dashboard" (Some user)) in
  fst (loadModule env) = Normal (globals st)
  /\ isDevelopment env = false
  /\ isAuthenticated (req st) = true
  /\ @isAuthorized MiniRegExp.engine (domains (globals st)) (passportUserOf (req st))
     <> Normal (JSBool true)
  /\ @authGate MiniRegExp.engine sampleUtils env st
     = (Throw (SyntaxError "Invalid regular expression: /c++dev@example.com/"),
        withTrace st [CallIsAuthorized user])
  /\ ~ In (NextError (Error "Unauthorized"))
          (trace (snd (@authGate MiniRegExp.engine sampleUtils env st))).
Proof.
  intros env user st.
  split; [reflexivity|]. split; [reflexivity|]. split; [reflexivity|].
  split; [discriminate|]. split; [reflexivity|].
  intros [H|[]]. discriminate H.
Qed.

(** Scenario C. *)
Lemma authGate_unauthenticated_witness :
  let env := productionEnv "example.com" in
  let st := initialState (googleGlobals ["example.com"]) (requestOf "/dashboard" None) in
  isDevelopment env = false
  /\ isAuthenticated (req st) = false
  /\ @authGate MiniRegExp.engine sampleUtils env st
     = (Normal tt,
        {| globals := googleGlobals ["example.com"];
           req := {| Request.session := {| Session.passport := None;
                                           Session.authRedirect := Some "/dashboard" |};
                     Request.path := "/dashboard";
                     Request.user := None;
                     Request.userInfo := None |};
           nextObject := 0;
           trace := [LogInfo "User not authenticated"; Redirect "/login"] |}).
Proof.
  intros env st.
  split; [reflexivity|]. split; [reflexivity|].
  apply (@authGate_unauthenticated MiniRegExp.engine sampleUtils env st);
    reflexivity.
Defined.

(** Scenario D: after the gate has stored the path, the callback route
    redirects to it. *)
Example scenario_callback :
  let st := initialState (googleGlobals ["example.com"]) (requestOf "/dashboard" None) in
  let st1 := snd (@authGate MiniRegExp.engine sampleUtils
                    (productionEnv "example.com") st) in
  trace (snd (authCallback (withTrace st1 []))) = [Redirect "/dashboard"]
  /\ trace (snd (authCallback st)) = [Redirect "/"].
Proof. split; reflexivity. Qed.


Lemma setUserInfo_production_witness :
  let env := productionEnv "example.com" in
  let user := googleProfile "117" "a@example.com" in
  let st := initialState (googleGlobals ["example.com"]) (requestOf "/" (Some user)) in
  (isDevelopment env = false
   /\ Request.userInfo (req st) = None
   /\ sessionProfile (req st) = Some user
   /\ hasProviderEmail (isSlackOauth (globals st)) user = true)
  /\ userInfoOf (snd (@setUserInfo sampleUtils env st))
     = Some {| UserInfo.email := Some "a@example.com";
               UserInfo.userId := Some "117";
               UserInfo.analyticsUserId := md5 "117library" |}.
Proof.
  intros env user st. split; [repeat split|].
  destruct (@setUserInfo_production sampleUtils env st user
              eq_refl eq_refl eq_refl eq_refl) as [Hrun _].
  rewrite Hrun. reflexivity.
Defined.

(** C8 (as the spec words it) fails: in production with Google, for a
    session profile without [emails] no [userInfo] is computed; the call
    throws a TypeError. *)
Lemma setUserInfo_production_throws :
  let env := productionEnv "example.com" in
  let user := {| Profile.id := Some "117"; Profile.email := None;
                 Profile.emails := None |} in
  let st := initialState (googleGlobals ["example.com"]) (requestOf "/" (Some user)) in
  isDevelopment env = false
  /\ sessionProfile (req st) = Some user
  /\ @setUserInfo sampleUtils env st
     = (Throw (TypeError "Cannot read properties of undefined (reading '0')"), st)
  /\ userInfoOf (snd (@setUserInfo sampleUtils env st)) = None.
Proof. intros env user st. repeat split. Qed.

Lemma setUserInfo_twice_witness :
  let env := productionEnv "example.com" in
  let user := googleProfile "117" "a@example.com" in
  let st := initialState (googleGlobals ["example.com"]) (requestOf "/" (Some user)) in
  let st1 := snd (@setUserInfo sampleUtils env st) in
  let dev := developmentEnv "example.com" in
  let dst1 := snd (@setUserInfo sampleUtils dev st) in
  (@setUserInfo sampleUtils env st = (Normal tt, st1)
   /\ exists st2,
       @setUserInfo sampleUtils env st1 = (Normal tt, st2)
       /\ userInfoOf st2 = userInfoOf st1
       /\ (isDevelopment env = false -> st2 = st1)
       /\ (isDevelopment env = true ->
           exists o1 o2,
             Request.userInfo (req st1) = Some o1
             /\ Request.userInfo (req st2) = Some o2
             /\ objId o2 = nextObject st1
             /\ objId o2 <> objId o1
             /\ objVal o2 = objVal o1
             /\ nextObject st2 = S (nextObject st1)))
  /\ (@setUserInfo sampleUtils dev st = (Normal tt, dst1)
      /\ exists st2,
          @setUserInfo sampleUtils dev dst1 = (Normal tt, st2)
          /\ userInfoOf st2 = userInfoOf dst1
          /\ (isDevelopment dev = false -> st2 = dst1)
          /\ (isDevelopment dev = true ->
              exists o1 o2,
                Request.userInfo (req dst1) = Some o1
                /\ Request.userInfo (req st2) = Some o2
                /\ objId o2 = nextObject dst1
                /\ objId o2 <> objId o1
                /\ objVal o2 = objVal o1
                /\ nextObject st2 = S (nextObject dst1))).
Proof.
  intros env user st st1 dev dst1. split.
  - split; [reflexivity|].
    apply (@setUserInfo_twice sampleUtils env st st1). reflexivity.
  - split; [reflexivity|].
    apply (@setUserInfo_twice sampleUtils dev st dst1). reflexivity.
Defined.

(** C7 (as the spec words it) fails in development mode: the second call
    does not return the cached object, it builds the record again. *)
Lemma setUserInfo_development_recomputes :
  let env := developmentEnv "example.com" in
  let st := initialState (googleGlobals ["example.com"]) (requestOf "/" None) in
  let st1 := snd (@setUserInfo sampleUtils env st) in
  let st2 := snd (@setUserInfo sampleUtils env st1) in
  option_map objId (Request.userInfo (req st1)) = Some 0
  /\ option_map objId (Request.userInfo (req st2)) = Some 1
  /\ Request.userInfo (req st2) <> Request.userInfo (req st1)
  /\ nextObject st2 <> nextObject st1.
Proof. intros env st st1 st2. repeat split; discriminate. Qed.

(** C10: there are an allow-list with a pattern that matches the empty
    string and an authenticated session profile without [emails] for which
    the matcher answers [true] and the gate, in production with Google,
    then throws the TypeError of [setUserInfo] reading the first email
    entry: no [userInfo] is attached and [next] is not called. *)
Theorem authorized_profile_setUserInfo_throws :
  exists (env : Env) (g : Globals) (r : Request.t),
    fst (loadModule env) = Normal g
    /\ isDevelopment env = false
    /\ isSlackOauth g = false
    /\ isAuthenticated r = true
    /\ Profile.emails (passportUserOf r) = None
    /\ (exists p, In p (domains g) /\ @regexMatches MiniRegExp.engine p "" = true)
    /\ @isAuthorized MiniRegExp.engine (domains g) (passportUserOf r)
       = Normal (JSBool true)
    /\ @setUserInfo sampleUtils env
         (withTrace (initialState g r) [CallIsAuthorized (passportUserOf r)])
       = (Throw (TypeError "Cannot read properties of undefined (reading '0')"),
          withTrace (initialState g r) [CallIsAuthorized (passportUserOf r)])
    /\ @authGate MiniRegExp.engine sampleUtils env (initialState g r)
       = (Throw (TypeError "Cannot read properties of undefined (reading '0')"),
          withTrace (initialState g r) [CallIsAuthorized (passportUserOf r)]).
Proof.
  exists (productionEnv ".*"), (googleGlobals [".*"]),
    (requestOf "/dashboard"
       (Some {| Profile.id := Some "117"; Profile.email := None;
                Profile.emails := None |})).
  repeat split.
  exists ".*". split; [now left | reflexivity].
Qed.

(** * Further properties *)

(** ** Pieces of a split *)

Lemma String_append_assoc (a b c : string) :
  ((a ++ b) ++ c = a ++ (b ++ c))%string.
Proof. induction a as [|x a IH]; simpl; [reflexivity | now rewrite IH]. Qed.

Lemma String_append_empty (a : string) : (a ++ "")%string = a.
Proof. induction a as [|x a IH]; simpl; [reflexivity | now rewrite IH]. Qed.

Lemma list_ascii_of_string_append (a b : string) :
  list_ascii_of_string (a ++ b)
  = list_ascii_of_string a ++ list_ascii_of_string b.
Proof. induction a as [|x a IH]; simpl; [reflexivity | now rewrite IH]. Qed.

Lemma String_split_pieces_without (sep : ascii) (s : string) :
  Forall (fun p => String_includes sep p = false) (String_split sep s).
Proof.
  induction s as [|c s IH].
  - repeat constructor.
  - rewrite String_split_cons. destruct (Ascii.eqb c sep) eqn:Hc.
    + constructor; [reflexivity | assumption].
    + destruct (String_split sep s) as [|p ps]; [constructor|].
      inversion IH as [|? ? Hp Hps]; subst.
      constructor; [simpl; now rewrite Hc, Hp | assumption].
Qed.

Lemma String_join_cons (sep p q : string) (rest : list string) :
  String_join sep (p :: q :: rest) = (p ++ sep ++ String_join sep (q :: rest))%string.
Proof. reflexivity. Qed.

Lemma String_split_join (sep : ascii) (s : string) :
  String_join (String sep EmptyString) (String_split sep s) = s.
Proof.
  induction s as [|c s IH]; [reflexivity|].
  rewrite String_split_cons. destruct (Ascii.eqb c sep) eqn:Hc.
  - apply Ascii.eqb_eq in Hc as ->.
    destruct (String_split sep s) as [|p ps] eqn:Hs;
      [now apply String_split_nonempty in Hs|].
    rewrite String_join_cons, IH. reflexivity.
  - destruct (String_split sep s) as [|p [|q ps]] eqn:Hs;
      [now apply String_split_nonempty in Hs | |].
    + simpl in *. now rewrite IH.
    + rewrite String_join_cons. rewrite String_join_cons in IH.
      rewrite <- IH. reflexivity.
Qed.

Lemma String_join_last (sep : string) (l : list string) (d : string) :
  l <> [] ->
  String_join sep (l ++ [d]) = (String_join sep l ++ sep ++ d)%string.
Proof.
  induction l as [|p l IH]; [contradiction|]. intros _.
  destruct l as [|q l]; [reflexivity|].
  change ((p :: q :: l) ++ [d]) with (p :: (q :: l) ++ [d]).
  simpl app. rewrite !String_join_cons.
  change (q :: l ++ [d]) with ((q :: l) ++ [d]).
  rewrite IH by discriminate.
  now rewrite !String_append_assoc.
Qed.

(** X1: the domain the matcher derives from an email never holds an ['@'],
    and the email is either that domain alone or ends with ['@'] and the
    domain. *)
Theorem userDomainOf_is_suffix (userEmail : string) :
  String_includes "@" (userDomainOf userEmail) = false
  /\ (userEmail = userDomainOf userEmail
      \/ exists pre,
          userEmail = (pre ++ String "@" (userDomainOf userEmail))%string).
Proof.
  rewrite userDomainOf_last.
  pose proof (String_split_pieces_without "@" userEmail) as Hall.
  pose proof (String_split_join "@" userEmail) as Hjoin.
  destruct (String_split "@" userEmail) as [|p ps] eqn:Hs;
    [now apply String_split_nonempty in Hs|].
  destruct (@exists_last _ (p :: ps) ltac:(discriminate)) as (init & d & Heq).
  rewrite Heq in *. rewrite last_last. split.
  - rewrite Forall_forall in Hall. apply Hall. apply in_or_app. right. now left.
  - destruct init as [|i init].
    + left. simpl in Hjoin. now symmetry.
    + right. rewrite String_join_last in Hjoin by discriminate.
      exists (String_join "@" (i :: init)). now symmetry.
Qed.

(** ** The configured allow-list *)

Lemma String_split_commas_cons_eq (c : ascii) (s : string) :
  String_split_commas (String c s)
  = if Ascii.eqb c ","
    then EmptyString :: String_split_commas (skipWhiteSpace s)
    else match String_split_commas s with
         | piece :: pieces => String c piece :: pieces
         | [] => []
         end.
Proof.
  unfold String_split_commas. simpl. destruct (Ascii.eqb c ",").
  - change (match s with
            | EmptyString => s
            | String w s'' => if isWhiteSpace w then s'' else s
            end) with (skipWhiteSpace s).
    now destruct (splitCommaPieces (skipWhiteSpace s)).
  - now destruct (splitCommaPieces s).
Qed.

Lemma skipWhiteSpace_length (s : string) :
  String.length (skipWhiteSpace s) <= String.length s.
Proof.
  destruct s as [|w s]; simpl; [lia|]. destruct (isWhiteSpace w); simpl; lia.
Qed.

Lemma skipWhiteSpace_count (s : string) :
  String_count "," (skipWhiteSpace s) = String_count "," s.
Proof.
  destruct s as [|w s]; [reflexivity|]. simpl.
  destruct (isWhiteSpace w) eqn:Hw; [|reflexivity].
  destruct (Ascii.eqb_spec w ","); [subst; discriminate Hw | reflexivity].
Qed.

(** X2: the value of the configuration is cut at every comma and nowhere
    else: there is one element more than there are commas, and no element
    holds a comma. *)
Theorem String_split_commas_pieces (s : string) :
  List.length (String_split_commas s) = String_count "," s + 1
  /\ Forall (fun p => withoutComma p = true) (String_split_commas s).
Proof.
  remember (String.length s) as n eqn:Hn.
  assert (Hle : String.length s <= n) by lia. clear Hn.
  revert s Hle. induction n as [|n IH]; intros s Hle.
  - destruct s; [|simpl in Hle; lia]. split; [reflexivity | repeat constructor].
  - destruct s as [|c s]; [split; [reflexivity | repeat constructor]|].
    simpl in Hle. rewrite String_split_commas_cons_eq. simpl String_count.
    destruct (Ascii.eqb c ",") eqn:Hc.
    + pose proof (skipWhiteSpace_length s).
      destruct (IH (skipWhiteSpace s) ltac:(lia)) as [Hlen Hall].
      rewrite skipWhiteSpace_count in Hlen. split.
      * simpl. rewrite Hlen. lia.
      * constructor; [reflexivity | assumption].
    + destruct (IH s ltac:(lia)) as [Hlen Hall].
      destruct (String_split_commas s) as [|p ps]; [simpl in Hlen; lia|].
      split; [exact Hlen|].
      inversion Hall as [|? ? Hp Hps]; subst. constructor; [|assumption].
      unfold withoutComma in *. simpl. now rewrite Hc.
Qed.

Lemma String_split_commas_without (p : string) :
  withoutComma p = true -> String_split_commas p = [p].
Proof.
  unfold withoutComma. induction p as [|c p IH]; [reflexivity|]. simpl.
  rewrite negb_orb, andb_true_iff, negb_true_iff. intros [Hc Hp].
  rewrite String_split_commas_cons_eq, Hc, (IH Hp). reflexivity.
Qed.

Lemma String_split_commas_append (p t : string) :
  withoutComma p = true ->
  String_split_commas (p ++ String "," t)
  = p :: String_split_commas (skipWhiteSpace t).
Proof.
  unfold withoutComma. induction p as [|c p IH]; simpl.
  - intros _. now rewrite String_split_commas_cons_eq.
  - rewrite negb_orb, andb_true_iff, negb_true_iff. intros [Hc Hp].
    rewrite String_split_commas_cons_eq, Hc, (IH Hp). reflexivity.
Qed.

Lemma skipWhiteSpace_join (q : string) (rest : list string) :
  startsWithWhiteSpace q = false ->
  skipWhiteSpace (String_join "," (q :: rest)) = String_join "," (q :: rest).
Proof.
  intros Hq. destruct rest as [|r rest].
  - destruct q as [|c q]; [reflexivity|]. simpl in *. now rewrite Hq.
  - rewrite String_join_cons. destruct q as [|c q]; [reflexivity|].
    simpl in *. now rewrite Hq.
Qed.

Lemma skipWhiteSpace_space (t : string) : skipWhiteSpace (String " " t) = t.
Proof. reflexivity. Qed.

(** X3: a list of comma-free elements written with [", "] between them is
    read back as it was; written with [","] alone it is read back as it
    was when no element after the first starts with white space. *)
Theorem String_split_commas_join (l : list string) :
  l <> [] ->
  Forall (fun p => withoutComma p = true) l ->
  String_split_commas (String_join ", " l) = l
  /\ (Forall (fun p => startsWithWhiteSpace p = false) (tl l) ->
      String_split_commas (String_join "," l) = l).
Proof.
  intros Hne Hall. induction Hall as [|p l Hp Hall IH]; [contradiction|].
  clear Hne. destruct l as [|q l].
  - split; [|intros _]; simpl; now apply String_split_commas_without.
  - destruct (IH ltac:(discriminate)) as [IH1 IH2]. split.
    + rewrite String_join_cons.
      change (", " ++ String_join ", " (q :: l))%string
        with (String "," (String " " (String_join ", " (q :: l)))).
      rewrite (String_split_commas_append _ _ Hp), skipWhiteSpace_space.
      now rewrite IH1.
    + intros Hws. simpl tl in Hws. inversion Hws as [|? ? Hq Hrest]; subst.
      rewrite String_join_cons.
      change ("," ++ String_join "," (q :: l))%string
        with (String "," (String_join "," (q :: l))).
      rewrite (String_split_commas_append _ _ Hp).
      rewrite (skipWhiteSpace_join _ _ Hq).
      rewrite IH2; [reflexivity|].
      destruct l; simpl; [constructor | assumption].
Qed.

Lemma String_split_commas_join_witness :
  ["example.com"; "ann@example.org"; ".*\.example\.net"] <> []
  /\ String_split_commas "example.com, ann@example.org, .*\.example\.net"
     = ["example.com"; "ann@example.org"; ".*\.example\.net"].
Proof.
  split; [discriminate|].
  exact (proj1 (String_split_commas_join
                  ["example.com"; "ann@example.org"; ".*\.example\.net"]
                  ltac:(discriminate) ltac:(repeat constructor))).
Defined.

(** X4: with the allow-list written as comma-free elements joined by
    [", "], loading the module gives a set without repetition in which
    [has] answers [true] exactly for the elements written. *)
Theorem loadModule_domains_has (env : Env) (l : list string) :
  l <> [] ->
  Forall (fun p => withoutComma p = true) l ->
  APPROVED_DOMAINS env = Some (String_join ", " l) ->
  exists g evs,
    loadModule env = (Normal g, evs)
    /\ NoDup (domains g)
    /\ forall x, Set_has (domains g) x = true <-> In x l.
Proof.
  intros Hne Hall Henv. unfold loadModule. rewrite Henv.
  destruct (String_split_commas_join l Hne Hall) as [-> _].
  destruct (match OAUTH_STRATEGY env with
            | Some s => existsb (String.eqb s) authStrategies
            | None => false
            end); do 2 eexists; (split; [reflexivity|]); simpl;
    (split; [apply Set_new_NoDup|]); intros x;
    now rewrite Set_has_In, Set_new_In.
Qed.

Lemma loadModule_domains_has_witness :
  ["example.com"; "ann@example.org"] <> []
  /\ APPROVED_DOMAINS (productionEnv "example.com, ann@example.org")
     = Some (String_join ", " ["example.com"; "ann@example.org"])
  /\ exists g evs,
      loadModule (productionEnv "example.com, ann@example.org") = (Normal g, evs)
      /\ NoDup (domains g)
      /\ forall x, Set_has (domains g) x = true
                   <-> In x ["example.com"; "ann@example.org"].
Proof.
  split; [discriminate|]. split; [reflexivity|].
  apply (loadModule_domains_has (productionEnv "example.com, ann@example.org")
           ["example.com"; "ann@example.org"]).
  - discriminate.
  - repeat constructor.
  - reflexivity.
Defined.

(** X5: whatever [OAUTH_STRATEGY] holds, the strategy the module settles on
    is one of the two it supports; it is Slack exactly for the value
    ["Slack"], and the warning is logged exactly when the value is neither
    ["google"] nor ["Slack"]. *)
Theorem loadModule_strategy (env : Env) (approved : string) :
  APPROVED_DOMAINS env = Some approved ->
  exists g evs,
    loadModule env = (Normal g, evs)
    /\ In (authStrategy g) authStrategies
    /\ (isSlackOauth g = true <-> OAUTH_STRATEGY env = Some "Slack")
    /\ (isSlackOauth g = true <-> authStrategy g = "Slack")
    /\ ((exists msg, In (LogWarn msg) evs)
        <-> OAUTH_STRATEGY env <> Some "google"
            /\ OAUTH_STRATEGY env <> Some "Slack").
Proof.
  intros Henv. unfold loadModule. rewrite Henv.
  destruct (OAUTH_STRATEGY env) as [s|]; simpl;
    [destruct (String.eqb_spec s "google") as [->|Hg]; simpl;
     [|destruct (String.eqb_spec s "Slack") as [->|Hs]; simpl]|];
    do 2 eexists; (split; [reflexivity|]); simpl;
    repeat split; intros;
    repeat match goal with
      | H : exists _, _ |- _ => destruct H
      | H : _ \/ _ |- _ => destruct H
      | H : _ /\ _ |- _ => destruct H
      | H : False |- _ => destruct H
      end;
    try discriminate; try congruence; auto;
    eexists; right; left; reflexivity.
Qed.

Lemma loadModule_strategy_witness :
  APPROVED_DOMAINS (productionEnv "example.com") = Some "example.com"
  /\ exists g evs,
      loadModule (productionEnv "example.com") = (Normal g, evs)
      /\ In (authStrategy g) authStrategies
      /\ (isSlackOauth g = true <-> OAUTH_STRATEGY (productionEnv "example.com") = Some "Slack")
      /\ (isSlackOauth g = true <-> authStrategy g = "Slack")
      /\ ((exists msg, In (LogWarn msg) evs)
          <-> OAUTH_STRATEGY (productionEnv "example.com") <> Some "google"
              /\ OAUTH_STRATEGY (productionEnv "example.com") <> Some "Slack").
Proof.
  split; [reflexivity|].
  apply (loadModule_strategy (productionEnv "example.com") "example.com").
  reflexivity.
Defined.

(** ** More on the domain matcher *)

Section DomainMatcherMore.
Context {engine : RegExpEngine}.

(** X6: an email whose domain, or which itself, is an element of the set
    is authorized whatever else the set holds: the elements are not read
    as patterns, so an ill-formed one cannot make the call throw. *)
Theorem isAuthorized_literal_hit (S : JSSet) (user : Profile.t) :
  In (userDomainOf (firstEmailValue user)) S \/ In (firstEmailValue user) S ->
  isAuthorized S user = Normal (JSBool true).
Proof.
  intros H. apply isAuthorized_literal.
  destruct H as [H|H]; [left | right]; now apply Set_has_In.
Qed.

Lemma listed_incl (S S' : JSSet) (E : string) :
  incl S S' -> listed S E = true -> listed S' E = true.
Proof.
  intros Hincl. rewrite !listed_iff.
  intros [H|[H|(p & Hp & Hm)]]; [left | right; left | right; right]; auto.
  exists p. auto.
Qed.

(** X7: among sets of well-formed patterns, adding elements never takes an
    authorization away, and two sets with the same elements, in whatever
    order they were written, give the same answer. *)
Theorem isAuthorized_monotone (S S' : JSSet) (user : Profile.t) :
  forallb wellFormed S = true ->
  forallb wellFormed S' = true ->
  incl S S' ->
  (isAuthorized S user = Normal (JSBool true) ->
   isAuthorized S' user = Normal (JSBool true))
  /\ (incl S' S -> isAuthorized S' user = isAuthorized S user).
Proof.
  intros Hwf Hwf' Hincl.
  rewrite (isAuthorized_wellFormed S user Hwf), (isAuthorized_wellFormed S' user Hwf').
  pose proof (listed_incl S S' (firstEmailValue user) Hincl) as Hup.
  split.
  - destruct (listed S (firstEmailValue user)); [|discriminate].
    now rewrite Hup.
  - intros Hback.
    pose proof (listed_incl S' S (firstEmailValue user) Hback) as Hdown.
    destruct (listed S (firstEmailValue user)), (listed S' (firstEmailValue user));
      try reflexivity.
    + now specialize (Hup eq_refl).
    + now specialize (Hdown eq_refl).
Qed.

Lemma checkRegexLoop_outcome (userDomain : string) (l : list string) :
  checkRegexLoop userDomain l = Normal (JSBool true)
  \/ checkRegexLoop userDomain l = Normal JSUndefined
  \/ exists p,
      In p l /\ wellFormed p = false
      /\ checkRegexLoop userDomain l
         = Throw (SyntaxError ("Invalid regular expression: /" ++ p ++ "/")%string).
Proof.
  induction l as [|x l IH]; simpl; [auto|].
  unfold String_match. destruct (RegExp_new x) as [re|] eqn:Hx.
  - destruct (RegExp_exec re userDomain); [auto|].
    destruct IH as [H|[H|(p & Hp & Hwf & H)]]; [auto | auto |].
    right. right. exists p. auto.
  - right. right. exists x. unfold wellFormed. rewrite Hx. auto.
Qed.

(** X8: whenever the matcher returns, what it returns is [true] or
    [undefined], never [false]; and whenever it throws a SyntaxError,
    neither the domain nor the email is an element of the set, and the set
    holds an element that is ill-formed as a pattern. *)
Theorem isAuthorized_outcome (S : JSSet) (user : Profile.t) :
  (forall v,
      isAuthorized S user = Normal v -> v = JSBool true \/ v = JSUndefined)
  /\ (forall msg,
         isAuthorized S user = Throw (SyntaxError msg) ->
         ~ In (userDomainOf (firstEmailValue user)) S
         /\ ~ In (firstEmailValue user) S
         /\ exists p, In p S /\ wellFormed p = false).
Proof.
  split.
  - intros v. unfold isAuthorized, checkRegexEmail, Array_from, jsOr.
    destruct (Set_has S (userDomainOf (firstEmailValue user))); simpl;
      [intros [= <-]; auto|].
    destruct (Set_has S (firstEmailValue user)); simpl; [intros [= <-]; auto|].
    destruct (checkRegexLoop_outcome (userDomainOf (firstEmailValue user)) S)
      as [H|[H|(p & _ & _ & H)]]; rewrite H; intros [= <-]; auto.
  - intros msg. unfold isAuthorized, checkRegexEmail, Array_from, jsOr.
    destruct (Set_has S (userDomainOf (firstEmailValue user))) eqn:Hdom; simpl;
      [discriminate|].
    destruct (Set_has S (firstEmailValue user)) eqn:Hemail; simpl; [discriminate|].
    intros Hthrow.
    split; [intros Hin; apply Set_has_In in Hin; congruence|].
    split; [intros Hin; apply Set_has_In in Hin; congruence|].
    destruct (checkRegexLoop_outcome (userDomainOf (firstEmailValue user)) S)
      as [H|[H|(p & Hp & Hwf & _)]]; [congruence | congruence |].
    exists p. auto.
Qed.
End DomainMatcherMore.

Lemma isAuthorized_literal_hit_witness :
  In (userDomainOf (firstEmailValue (googleProfile "1" "ann@example.org")))
     ["c++dev@example.com"; "example.org"]
  /\ @isAuthorized MiniRegExp.engine ["c++dev@example.com"; "example.org"]
       (googleProfile "1" "ann@example.org")
     = Normal (JSBool true).
Proof.
  split; [right; left; reflexivity|].
  apply (@isAuthorized_literal_hit MiniRegExp.engine).
  left. right. left. reflexivity.
Defined.

Lemma isAuthorized_outcome_witness :
  let S := ["c++dev@example.com"] in
  let user := googleProfile "1" "ann@other.com" in
  @isAuthorized MiniRegExp.engine S user
  = Throw (SyntaxError "Invalid regular expression: /c++dev@example.com/")
  /\ ~ In (userDomainOf (firstEmailValue user)) S
  /\ ~ In (firstEmailValue user) S
  /\ exists p, In p S /\ @wellFormed MiniRegExp.engine p = false.
Proof.
  intros S user. split; [reflexivity|].
  apply (proj2 (@isAuthorized_outcome MiniRegExp.engine S user)
           "Invalid regular expression: /c++dev@example.com/").
  reflexivity.
Defined.

Lemma isAuthorized_monotone_witness :
  let S := ["example.com"] in
  let S' := ["^lab\."; "example.com"] in
  let user := googleProfile "1" "ann@example.com" in
  (forallb (@wellFormed MiniRegExp.engine) S = true
   /\ forallb (@wellFormed MiniRegExp.engine) S' = true
   /\ incl S S')
  /\ (@isAuthorized MiniRegExp.engine S user = Normal (JSBool true) ->
      @isAuthorized MiniRegExp.engine S' user = Normal (JSBool true)).
Proof.
  intros S S' user.
  assert (Hincl : incl S S') by (intros x [<-|[]]; right; left; reflexivity).
  split; [split; [reflexivity|]; split; [reflexivity | exact Hincl]|].
  exact (proj1 (@isAuthorized_monotone MiniRegExp.engine S S' user
                  eq_refl eq_refl Hincl)).
Defined.

(** ** Elements written like domains, read as patterns *)

Section PlainPatterns.
Import MiniRegExp.

Lemma plainChar_ordinary (c : ascii) :
  plainChar c = true ->
  Ascii.eqb c "." = false ->
  isSyntaxCharacter c = false.
Proof.
  unfold plainChar. intros H Hdot. rewrite Hdot, orb_false_r in H.
  now apply negb_true_iff.
Qed.

Lemma isSyntaxCharacter_false (c : ascii) :
  isSyntaxCharacter c = false ->
  Ascii.eqb c "^" = false /\ Ascii.eqb c "$" = false /\ Ascii.eqb c "\" = false
  /\ Ascii.eqb c "*" = false /\ Ascii.eqb c "+" = false /\ Ascii.eqb c "?" = false
  /\ Ascii.eqb c "(" = false /\ Ascii.eqb c ")" = false /\ Ascii.eqb c "|" = false
  /\ notAtomStart c = false.
Proof.
  unfold isSyntaxCharacter, notAtomStart. simpl. intros H.
  repeat match type of H with
         | (_ || _)%bool = false => apply orb_false_elim in H as [?H H]
         end.
  repeat split; try assumption.
  repeat (apply orb_false_intro; [assumption|]). reflexivity.
Qed.

Lemma plainChar_not_quantifier (c : ascii) :
  plainChar c = true ->
  Ascii.eqb c "*" = false /\ Ascii.eqb c "+" = false /\ Ascii.eqb c "?" = false
  /\ Ascii.eqb c "|" = false /\ Ascii.eqb c ")" = false.
Proof.
  intros H. destruct (Ascii.eqb c ".") eqn:Hdot.
  - apply Ascii.eqb_eq in Hdot as ->. repeat split; reflexivity.
  - pose proof (isSyntaxCharacter_false c (plainChar_ordinary c H Hdot)). tauto.
Qed.

Lemma quantified_plain (a : regex) (l : list ascii) :
  forallb plainChar l = true -> quantified a l = (a, l).
Proof.
  destruct l as [|c l]; [reflexivity|]. simpl.
  intros H. apply andb_prop in H as [Hc _].
  destruct (plainChar_not_quantifier c Hc) as (-> & -> & -> & _). reflexivity.
Qed.

Lemma parseTerm_plain (fuel : nat) (c : ascii) (l : list ascii) :
  forallb plainChar (c :: l) = true ->
  parseTerm (S fuel) (c :: l)
  = Some (if Ascii.eqb c "." then AnyChar else Char c, l).
Proof.
  simpl forallb. intros H. apply andb_prop in H as [Hc Hl].
  destruct (Ascii.eqb c ".") eqn:Hdot.
  - apply Ascii.eqb_eq in Hdot as ->. simpl.
    now rewrite (quantified_plain AnyChar l Hl).
  - destruct (isSyntaxCharacter_false c (plainChar_ordinary c Hc Hdot))
      as (H1 & H2 & H3 & _ & _ & _ & H7 & _ & _ & H10).
    simpl. rewrite H1, H2, Hdot, H7, H3, H10.
    now rewrite (quantified_plain (Char c) l Hl).
Qed.

Lemma parseAlternative_plain (l : list ascii) :
  forallb plainChar l = true ->
  forall fuel, List.length l < fuel ->
               parseAlternative fuel l = Some (chainOf l, []).
Proof.
  induction l as [|c l IH]; intros Hl fuel Hfuel.
  - destruct fuel; [lia | reflexivity].
  - destruct fuel as [|[|fuel]]; simpl in Hfuel; try lia.
    assert (Hc : plainChar c = true) by (simpl in Hl; now apply andb_prop in Hl).
    assert (Hl' : forallb plainChar l = true)
      by (simpl in Hl; now apply andb_prop in Hl).
    destruct (plainChar_not_quantifier c Hc) as (_ & _ & _ & Hbar & Hpar).
    change (parseAlternative (S (S fuel)) (c :: l))
      with (if (Ascii.eqb c "|" || Ascii.eqb c ")")%bool then Some (Empty, c :: l)
            else match parseTerm (S fuel) (c :: l) with
                 | Some (t, r) =>
                     match parseAlternative (S fuel) r with
                     | Some (a, r') => Some (Seq t a, r')
                     | None => None
                     end
                 | None => None
                 end).
    rewrite Hbar, Hpar, (parseTerm_plain fuel c l Hl). simpl orb. cbv iota.
    rewrite (IH Hl' (S fuel)) by lia. reflexivity.
Qed.

Lemma compile_plain (p : string) :
  plainPattern p = true -> compile p = Some (chainOf (list_ascii_of_string p)).
Proof.
  unfold plainPattern, compile. intros Hp.
  replace (3 * List.length (list_ascii_of_string p) + 4)
    with (S (3 * List.length (list_ascii_of_string p) + 3)) by lia.
  simpl parseDisjunction.
  rewrite (parseAlternative_plain _ Hp) by lia. reflexivity.
Qed.

(** The expression of a plain pattern matches the pattern's own text. *)
Lemma matches_chainOf (l post : list ascii) (pos : nat) :
  forallb plainChar l = true ->
  matches (chainOf l) pos (l ++ post) (pos + List.length l) post.
Proof.
  revert pos. induction l as [|c l IH]; intros pos Hl; simpl.
  - rewrite Nat.add_0_r. constructor.
  - apply andb_prop in Hl as [_ Hl].
    apply MatchSeq with (q := S pos) (t := l ++ post).
    + destruct (Ascii.eqb c ".") eqn:Hdot.
      * apply Ascii.eqb_eq in Hdot as ->. now constructor.
      * constructor.
    + replace (pos + S (List.length l)) with (S pos + List.length l) by lia.
      apply IH, Hl.
Qed.

Lemma regexMatches_plain (p pre post : string) :
  plainPattern p = true ->
  regexMatches p (pre ++ p ++ post) = true.
Proof.
  intros Hp. unfold regexMatches. simpl RegExp_new. rewrite (compile_plain p Hp).
  apply exec_spec.
  exists (list_ascii_of_string pre), (list_ascii_of_string p),
    (list_ascii_of_string post).
  split; [now rewrite !list_ascii_of_string_append|].
  now apply matches_chainOf.
Qed.

(** X9: an element made of ordinary characters and dots authorizes every
    email whose domain merely holds it somewhere, as in
    [example.com.evil.org] for [example.com], provided the elements before
    it in the set are well-formed patterns. *)
Theorem isAuthorized_domain_holds_element
        (before after : list string) (p : string)
        (user : Profile.t) (pre post : string) :
  plainPattern p = true ->
  forallb wellFormed before = true ->
  userDomainOf (firstEmailValue user) = (pre ++ p ++ post)%string ->
  isAuthorized (before ++ p :: after) user = Normal (JSBool true).
Proof.
  intros Hp Hwf Hdom. apply isAuthorized_true_iff. right. right.
  exists before, p, after. repeat split; [assumption|].
  rewrite Hdom. now apply regexMatches_plain.
Qed.

Lemma isAuthorized_domain_holds_element_witness :
  plainPattern "example.com" = true
  /\ userDomainOf (firstEmailValue (googleProfile "1" "eve@example.com.evil.org"))
     = ("" ++ "example.com" ++ ".evil.org")%string
  /\ isAuthorized ["example.com"] (googleProfile "1" "eve@example.com.evil.org")
     = Normal (JSBool true).
Proof.
  split; [reflexivity|]. split; [reflexivity|].
  apply (isAuthorized_domain_holds_element [] [] "example.com"
           (googleProfile "1" "eve@example.com.evil.org") "" ".evil.org");
    reflexivity.
Defined.
End PlainPatterns.

(** ** More on the identity normalizer *)

Section NormalizerMore.
Context {utils : ServerUtils}.
Variable env : Env.

Lemma readEmail_profile (g : Globals) (r : Request.t) :
  match readEmail g r with
  | Normal email =>
      exists u, sessionProfile r = Some u
                /\ hasProviderEmail (isSlackOauth g) u = true
                /\ email = providerEmail (isSlackOauth g) u
  | Throw e =>
      (exists msg, e = TypeError msg)
      /\ (sessionProfile r = None
          \/ exists u, sessionProfile r = Some u
                       /\ hasProviderEmail (isSlackOauth g) u = false)
  end.
Proof.
  unfold readEmail, profileEmail, firstEmailsValue, sessionPassportUser,
    sessionProfile, hasProviderEmail, providerEmail, noEmailEntries, cannotRead.
  destruct (Session.passport (Request.session r)) as [p|];
    [destruct (Passport.user p) as [u|]|];
    destruct (isSlackOauth g); simpl; eauto 8.
  destruct (Profile.emails u) as [[|entry rest]|] eqn:He; simpl.
  - split; [eauto|]. right. exists u. now rewrite He.
  - exists u. now rewrite He.
  - split; [eauto|]. right. exists u. now rewrite He.
Qed.

Lemma withReq_same (st : State) (o : Obj UserInfo.t) :
  Request.userInfo (req st) = Some o ->
  withReq st (withUserInfo (req st) o) = st.
Proof.
  destruct st as [g r n t]; destruct r as [sess path user ui]; simpl.
  now intros ->.
Qed.

(** What a call in production comes to. *)
Lemma setUserInfo_production_cases (st : State) :
  isDevelopment env = false ->
  setUserInfo env st
  = match readEmail (globals st) (req st) with
    | Throw e => (Throw e, st)
    | Normal email =>
        match Request.userInfo (req st), sessionProfile (req st) with
        | Some _, _ => (Normal tt, st)
        | None, Some u =>
            (Normal tt,
             attached st {| UserInfo.email := email;
                            UserInfo.userId := Profile.id u;
                            UserInfo.analyticsUserId :=
                              md5 (ToString (Profile.id u) ++ "library")%string |})
        | None, None => (Normal tt, st)
        end
    end.
Proof.
  intros Hdev. unfold setUserInfo. rewrite Hdev.
  unfold bind, getGlobals, getReq, liftC.
  pose proof (readEmail_profile (globals st) (req st)) as Hread.
  unfold readEmail in *.
  destruct (if isSlackOauth (globals st) then profileEmail (req st)
            else firstEmailsValue (req st)) as [email|e]; [|reflexivity].
  destruct Hread as (u & Hu & _ & _). rewrite Hu.
  destruct (Request.userInfo (req st)) as [o|] eqn:Hui.
  - unfold setReqUserInfo. now rewrite (withReq_same st o Hui).
  - unfold profileId. rewrite (sessionPassportUser_profile _ _ _ Hu). reflexivity.
Qed.

(** X16: in production [setUserInfo] throws exactly when the session has no
    profile or the profile lacks what the provider's email is read from,
    whether or not the request already has a [userInfo]; what it throws is
    a TypeError, and the state is as before the call. *)
Theorem setUserInfo_throws_iff (st : State) :
  isDevelopment env = false ->
  ((exists e, fst (setUserInfo env st) = Throw e)
   <-> sessionProfile (req st) = None
       \/ exists u, sessionProfile (req st) = Some u
                    /\ hasProviderEmail (isSlackOauth (globals st)) u = false)
  /\ (forall e, fst (setUserInfo env st) = Throw e ->
                (exists msg, e = TypeError msg) /\ snd (setUserInfo env st) = st).
Proof.
  intros Hdev. rewrite (setUserInfo_production_cases st Hdev).
  pose proof (readEmail_profile (globals st) (req st)) as Hread.
  destruct (readEmail (globals st) (req st)) as [email|e].
  - destruct Hread as (u & Hu & Hhas & _).
    assert (Hnothrow : forall e,
               fst (match Request.userInfo (req st), sessionProfile (req st) with
                    | Some _, _ => (Normal tt, st)
                    | None, Some u0 =>
                        (Normal tt,
                         attached st
                           {| UserInfo.email := email;
                              UserInfo.userId := Profile.id u0;
                              UserInfo.analyticsUserId :=
                                md5 (ToString (Profile.id u0) ++ "library")%string |})
                    | None, None => (Normal tt, st)
                    end) <> Throw e).
    { intros e. destruct (Request.userInfo (req st)), (sessionProfile (req st));
        discriminate. }
    split.
    + split.
      * intros [e He]. now apply Hnothrow in He.
      * intros [Hnone | (u' & Hu' & Hhas')]; [congruence|].
        rewrite Hu in Hu'. injection Hu' as <-. congruence.
    + intros e He. now apply Hnothrow in He.
  - destruct Hread as [Hmsg Hwhy]. simpl. split.
    + split; [intros _; exact Hwhy | eauto].
    + intros e' [= <-]. auto.
Qed.

(** X17: in production a request that already carries a [userInfo] keeps
    that very object, whatever the session profile now says, as long as the
    provider's email can be read; nothing is made and nothing changes. *)
Theorem setUserInfo_keeps_attached (st : State) (o : Obj UserInfo.t) (u : Profile.t) :
  isDevelopment env = false ->
  Request.userInfo (req st) = Some o ->
  sessionProfile (req st) = Some u ->
  hasProviderEmail (isSlackOauth (globals st)) u = true ->
  setUserInfo env st = (Normal tt, st).
Proof.
  intros Hdev Hui Hu Hhas. rewrite (setUserInfo_production_cases st Hdev).
  unfold readEmail. rewrite (providerEmail_read _ u _ Hu Hhas), Hui. reflexivity.
Qed.

(** X18: a profile without [id] gets [userId] undefined and the MD5 of
    "undefinedlibrary" as [analyticsUserId], so all such profiles share one
    analytics id. *)
Theorem setUserInfo_without_id (st : State) (u : Profile.t) :
  isDevelopment env = false ->
  Request.userInfo (req st) = None ->
  sessionProfile (req st) = Some u ->
  hasProviderEmail (isSlackOauth (globals st)) u = true ->
  Profile.id u = None ->
  userInfoOf (snd (setUserInfo env st))
  = Some {| UserInfo.email := providerEmail (isSlackOauth (globals st)) u;
            UserInfo.userId := None;
            UserInfo.analyticsUserId := md5 "undefinedlibrary" |}.
Proof.
  intros Hdev Hui Hu Hhas Hid.
  rewrite (setUserInfo_production_run env st u Hdev Hui Hu Hhas), Hid.
  reflexivity.
Qed.
End NormalizerMore.

Lemma setUserInfo_throws_iff_witness :
  let env := productionEnv "example.com" in
  let st := initialState (googleGlobals ["example.com"]) (requestOf "/" None) in
  isDevelopment env = false
  /\ exists e, fst (@setUserInfo sampleUtils env st) = Throw e.
Proof.
  intros env st. split; [reflexivity|].
  apply (proj1 (@setUserInfo_throws_iff sampleUtils env st eq_refl)).
  left. reflexivity.
Defined.

Lemma setUserInfo_keeps_attached_witness :
  let env := productionEnv "example.com" in
  let stale := {| objId := 7;
                  objVal := {| UserInfo.email := Some "old@example.com";
                               UserInfo.userId := Some "1";
                               UserInfo.analyticsUserId := md5 "1library" |} |} in
  let user := googleProfile "117" "a@example.com" in
  let st := {| globals := googleGlobals ["example.com"];
               req := withUserInfo (requestOf "/" (Some user)) stale;
               nextObject := 8; trace := [] |} in
  (isDevelopment env = false
   /\ Request.userInfo (req st) = Some stale
   /\ sessionProfile (req st) = Some user
   /\ hasProviderEmail (isSlackOauth (globals st)) user = true)
  /\ @setUserInfo sampleUtils env st = (Normal tt, st).
Proof.
  intros env stale user st.
  split; [split; [reflexivity|]; split; [reflexivity|]; split; reflexivity|].
  apply (@setUserInfo_keeps_attached sampleUtils env st stale user); reflexivity.
Defined.

Lemma setUserInfo_without_id_witness :
  let env := productionEnv "example.com" in
  let user := {| Profile.id := None; Profile.email := None;
                 Profile.emails := Some [{| value := Some "a@example.com" |}] |} in
  let st := initialState (googleGlobals ["example.com"]) (requestOf "/" (Some user)) in
  (isDevelopment env = false
   /\ Request.userInfo (req st) = None
   /\ sessionProfile (req st) = Some user
   /\ hasProviderEmail (isSlackOauth (globals st)) user = true
   /\ Profile.id user = None)
  /\ userInfoOf (snd (@setUserInfo sampleUtils env st))
     = Some {| UserInfo.email := Some "a@example.com";
               UserInfo.userId := None;
               UserInfo.analyticsUserId := md5 "undefinedlibrary" |}.
Proof.
  intros env user st.
  split; [split; [reflexivity|]; split; [reflexivity|]; split; [reflexivity|];
          split; reflexivity|].
  apply (@setUserInfo_without_id sampleUtils env st user); reflexivity.
Defined.

(** ** More on the gate *)

Section GateMore.
Context {engine : RegExpEngine} {utils : ServerUtils}.
Variable env : Env.

(** What a run of the gate comes to, branch by branch. *)
Lemma authGate_cases (st : State) :
  authGate env st
  = if isDevelopment env then (setUserInfo env ;; emit Next) st
    else if isAuthenticated (req st) then
      let user := passportUserOf (req st) in
      match isAuthorized (domains (globals st)) user with
      | Throw e => (Throw e, withTrace st (trace st ++ [CallIsAuthorized user]))
      | Normal v =>
          if truthy v
          then (setUserInfo env ;; emit Next)
                 (withTrace st (trace st ++ [CallIsAuthorized user]))
          else (Normal tt,
                withTrace st (trace st ++ [CallIsAuthorized user;
                                           CallIsAuthorized user;
                                           NextError (Error "Unauthorized")]))
      end
    else (Normal tt, redirectedToLogin st).
Proof.
  destruct (isDevelopment env) eqn:Hdev.
  - unfold authGate. unfold bind at 1. unfold getReq. rewrite Hdev.
    unfold bind at 1. reflexivity.
  - destruct (isAuthenticated (req st)) eqn:Hauth.
    + cbv zeta.
      destruct (isAuthorized (domains (globals st)) (passportUserOf (req st)))
        as [v|e] eqn:Hres.
      * destruct (truthy v) eqn:Hv.
        -- exact (authGate_authorized env st v Hdev Hauth Hres Hv).
        -- unfold authGate, bind, getReq, ret. rewrite Hdev, Hauth.
           rewrite callIsAuthorized_run, Hres, Hv.
           rewrite callIsAuthorized_run. cbn [globals withTrace]. rewrite Hres, Hv.
           unfold emit, withTrace. cbn. now rewrite <- !app_assoc.
      * exact (authGate_matcher_throws env st e Hdev Hauth Hres).
    + unfold authGate, bind, getReq, ret. rewrite Hdev, Hauth.
      unfold redirectedToLogin, emit, setAuthRedirect, withReq, withTrace. simpl.
      now rewrite <- app_assoc.
Qed.

(** [setUserInfo] answers nothing and appends nothing to the trace. *)
Lemma setUserInfo_trace (st : State) :
  trace (snd (setUserInfo env st)) = trace st.
Proof.
  destruct (isDevelopment env) eqn:Hdev.
  - now rewrite (setUserInfo_development env st Hdev).
  - rewrite (setUserInfo_production_cases env st Hdev).
    destruct (readEmail (globals st) (req st)); [|reflexivity].
    destruct (Request.userInfo (req st)), (sessionProfile (req st)); reflexivity.
Qed.

Lemma setUserInfo_then_next (st : State) :
  (setUserInfo env ;; emit Next) st
  = match setUserInfo env st with
    | (Normal _, st') => (Normal tt, withTrace st' (trace st ++ [Next]))
    | (Throw e, st') => (Throw e, st')
    end.
Proof.
  unfold bind. pose proof (setUserInfo_trace st) as Ht.
  destruct (setUserInfo env st) as [[[]|e] st']; simpl in *; [|reflexivity].
  unfold emit. now rewrite Ht.
Qed.

Lemma setUserInfo_frame (st : State) :
  let st' := snd (setUserInfo env st) in
  Request.user (req st') = Request.user (req st)
  /\ Request.path (req st') = Request.path (req st)
  /\ Request.session (req st') = Request.session (req st)
  /\ nextObject st <= nextObject st' <= S (nextObject st).
Proof.
  destruct (isDevelopment env) eqn:Hdev.
  - rewrite (setUserInfo_development env st Hdev). simpl. repeat split; lia.
  - rewrite (setUserInfo_production_cases env st Hdev).
    destruct (readEmail (globals st) (req st)); [|simpl; repeat split; lia].
    destruct (Request.userInfo (req st)), (sessionProfile (req st));
      simpl; repeat split; lia.
Qed.

Lemma passportUserOf_profile (r : Request.t) (u : Profile.t) :
  sessionProfile r = Some u -> passportUserOf r = u.
Proof.
  unfold sessionProfile, passportUserOf.
  destruct (Session.passport (Request.session r)) as [p|]; [|discriminate].
  now intros ->.
Qed.

(** X10: whenever the gate returns it has answered the request exactly
    once, by [next()], [next(error)] or a redirect, as the last thing it
    did; when it throws it has not answered. *)
Theorem authGate_answers_once (st : State) :
  exists evs,
    trace (snd (authGate env st)) = trace st ++ evs
    /\ match fst (authGate env st) with
       | Normal _ =>
           exists before answer,
             evs = before ++ [answer]
             /\ isResponse answer = true
             /\ noResponse before = true
       | Throw _ => noResponse evs = true
       end.
Proof.
  rewrite authGate_cases.
  assert (Hnext : forall st1 pre,
             trace st1 = trace st ++ pre -> noResponse pre = true ->
             exists evs,
               trace (snd ((setUserInfo env ;; emit Next) st1)) = trace st ++ evs
               /\ match fst ((setUserInfo env ;; emit Next) st1) with
                  | Normal _ =>
                      exists before answer,
                        evs = before ++ [answer]
                        /\ isResponse answer = true
                        /\ noResponse before = true
                  | Throw _ => noResponse evs = true
                  end).
  { intros st1 pre Hpre Hno. rewrite setUserInfo_then_next.
    pose proof (setUserInfo_trace st1) as Ht.
    destruct (setUserInfo env st1) as [[[]|e] st'] eqn:Hrun; simpl in *.
    - exists (pre ++ [Next]). rewrite Hpre, app_assoc. split; [reflexivity|].
      exists pre, Next. auto.
    - exists pre. rewrite Ht. auto. }
  destruct (isDevelopment env).
  - apply (Hnext st []); [now rewrite app_nil_r | reflexivity].
  - destruct (isAuthenticated (req st)).
    + cbv zeta.
      destruct (isAuthorized (domains (globals st)) (passportUserOf (req st)))
        as [v|e].
      * destruct (truthy v).
        -- apply (Hnext _ [CallIsAuthorized (passportUserOf (req st))]);
             reflexivity.
        -- eexists. split; [reflexivity|]. simpl.
           exists [CallIsAuthorized (passportUserOf (req st));
                   CallIsAuthorized (passportUserOf (req st))],
             (NextError (Error "Unauthorized")). auto.
      * eexists. split; [reflexivity|]. reflexivity.
    + eexists. split; [reflexivity|]. simpl.
      exists [LogInfo "User not authenticated"], (Redirect "/login"). auto.
Qed.

(** X11: outside development mode the gate calls [next()] only for an
    authenticated request whose profile the matcher answered [true] for,
    and then the request has a [userInfo]. *)
Theorem authGate_next_only_authorized (st : State) (evs : list Event) :
  isDevelopment env = false ->
  trace (snd (authGate env st)) = trace st ++ evs ->
  In Next evs ->
  isAuthenticated (req st) = true
  /\ isAuthorized (domains (globals st)) (passportUserOf (req st))
     = Normal (JSBool true)
  /\ fst (authGate env st) = Normal tt
  /\ exists o, Request.userInfo (req (snd (authGate env st))) = Some o.
Proof.
  intros Hdev. rewrite authGate_cases, Hdev.
  destruct (isAuthenticated (req st)).
  - cbv zeta.
    destruct (isAuthorized (domains (globals st)) (passportUserOf (req st)))
      as [v|e].
    + destruct (truthy v) eqn:Hv.
      * rewrite setUserInfo_then_next.
        pose proof (setUserInfo_trace
                      (withTrace st (trace st ++ [CallIsAuthorized (passportUserOf (req st))])))
          as Ht.
        destruct (setUserInfo env _) as [[[]|e] st'] eqn:Hrun; simpl in *.
        -- intros _ _. destruct v as [|[]]; try discriminate.
           destruct (setUserInfo_production_returns env _ _ Hdev Hrun) as [Ho _].
           auto.
        -- rewrite Ht. simpl. intros Heq Hin.
           apply app_inv_head in Heq. subst evs.
           destruct Hin as [H|[]]. discriminate.
      * simpl. intros Heq Hin.
        apply app_inv_head in Heq. subst evs.
        destruct Hin as [H|[H|[H|[]]]]; discriminate.
    + simpl. intros Heq Hin. apply app_inv_head in Heq. subst evs.
      destruct Hin as [H|[]]. discriminate.
  - simpl. intros Heq Hin. apply app_inv_head in Heq. subst evs.
    destruct Hin as [H|[H|[]]]; discriminate.
Qed.

(** X12: the gate never touches [req.user], the path or the session's
    passport data, and makes at most one object; the session's
    [authRedirect] changes only when an unauthenticated request is sent to
    the login, and then to the request's path. *)
Theorem authGate_frame (st : State) :
  let st' := snd (authGate env st) in
  Request.user (req st') = Request.user (req st)
  /\ Request.path (req st') = Request.path (req st)
  /\ Session.passport (Request.session (req st'))
     = Session.passport (Request.session (req st))
  /\ nextObject st <= nextObject st' <= S (nextObject st)
  /\ (Session.authRedirect (Request.session (req st'))
      = Session.authRedirect (Request.session (req st))
      \/ (isDevelopment env = false
          /\ isAuthenticated (req st) = false
          /\ Session.authRedirect (Request.session (req st'))
             = Some (Request.path (req st)))).
Proof.
  assert (Hnext : forall st1,
             req st1 = req st -> nextObject st1 = nextObject st ->
             let st' := snd ((setUserInfo env ;; emit Next) st1) in
             Request.user (req st') = Request.user (req st)
             /\ Request.path (req st') = Request.path (req st)
             /\ Session.passport (Request.session (req st'))
                = Session.passport (Request.session (req st))
             /\ nextObject st <= nextObject st' <= S (nextObject st)
             /\ (Session.authRedirect (Request.session (req st'))
                 = Session.authRedirect (Request.session (req st))
                 \/ (isDevelopment env = false
                     /\ isAuthenticated (req st) = false
                     /\ Session.authRedirect (Request.session (req st'))
                        = Some (Request.path (req st))))).
  { intros st1 Hreq Hobj. rewrite setUserInfo_then_next.
    pose proof (setUserInfo_frame st1) as (Hu & Hp & Hs & Hn).
    rewrite Hreq, Hobj in *.
    destruct (setUserInfo env st1) as [[[]|e] st']; simpl in *;
      rewrite Hu, Hp, Hs; repeat split; auto; lia. }
  rewrite authGate_cases. destruct (isDevelopment env) eqn:Hdev.
  - now apply Hnext.
  - destruct (isAuthenticated (req st)) eqn:Hauth.
    + cbv zeta.
      destruct (isAuthorized (domains (globals st)) (passportUserOf (req st)))
        as [v|e].
      * destruct (truthy v); [now apply Hnext|].
        simpl. repeat split; auto; lia.
      * simpl. repeat split; auto; lia.
    + simpl. repeat split; auto; lia.
Qed.

(** X13: outside development mode, an authenticated request whose profile
    the matcher accepts, which has no [userInfo] yet and whose profile has
    the provider's email, gets the profile's identity attached and is
    passed on: one call of the matcher, one new object, then [next()]. *)
Theorem authGate_authorized_attaches (st : State) (u : Profile.t) (v : JSValue) :
  isDevelopment env = false ->
  isAuthenticated (req st) = true ->
  sessionProfile (req st) = Some u ->
  isAuthorized (domains (globals st)) u = Normal v ->
  truthy v = true ->
  Request.userInfo (req st) = None ->
  hasProviderEmail (isSlackOauth (globals st)) u = true ->
  authGate env st
  = (Normal tt,
     withTrace
       (attached st
          {| UserInfo.email := providerEmail (isSlackOauth (globals st)) u;
             UserInfo.userId := Profile.id u;
             UserInfo.analyticsUserId :=
               md5 (ToString (Profile.id u) ++ "library")%string |})
       (trace st ++ [CallIsAuthorized u; Next])).
Proof.
  intros Hdev Hauth Hu Hres Hv Hui Hhas.
  rewrite authGate_cases, Hdev, Hauth. cbv zeta.
  rewrite (passportUserOf_profile _ _ Hu), Hres, Hv.
  rewrite setUserInfo_then_next.
  rewrite (setUserInfo_production_run env
             (withTrace st (trace st ++ [CallIsAuthorized u])) u Hdev Hui Hu Hhas).
  unfold withTrace, attached. simpl. now rewrite <- app_assoc.
Qed.

(** X14: where the gate sends an unauthenticated request to the login, the
    callback route afterwards redirects to the path that was asked for;
    the target is never the empty string, ["/"] standing in for it. *)
Theorem authGate_then_authCallback (st : State) :
  isDevelopment env = false ->
  isAuthenticated (req st) = false ->
  let st1 := snd (authGate env st) in
  exists target,
    authCallback st1 = (Normal tt, withTrace st1 (trace st1 ++ [Redirect target]))
    /\ target = (if String.eqb (Request.path (req st)) "" then "/"
                 else Request.path (req st))
    /\ target <> "".
Proof.
  intros Hdev Hauth. rewrite authGate_cases, Hdev, Hauth. simpl.
  exists (if String.eqb (Request.path (req st)) "" then "/"
          else Request.path (req st)).
  split; [reflexivity|]. split; [reflexivity|].
  destruct (String.eqb_spec (Request.path (req st)) "") as [Heq|Hne];
    [discriminate | exact Hne].
Qed.

(** X15: a profile that carries its address in [email] alone, without
    entries in [emails], is judged on the empty email whichever provider is
    active: unless the set holds the empty string or a pattern that matches
    it, the gate answers with the error, on a set of well-formed patterns. *)
Theorem authGate_address_in_email_only (st : State) (u : Profile.t) :
  isDevelopment env = false ->
  isAuthenticated (req st) = true ->
  sessionProfile (req st) = Some u ->
  noEmailEntries u = true ->
  forallb wellFormed (domains (globals st)) = true ->
  listed (domains (globals st)) "" = false ->
  authGate env st
  = (Normal tt,
     withTrace st (trace st ++ [CallIsAuthorized u; CallIsAuthorized u;
                                NextError (Error "Unauthorized")])).
Proof.
  intros Hdev Hauth Hu Hno Hwf Hlisted.
  rewrite authGate_cases, Hdev, Hauth. cbv zeta.
  rewrite (passportUserOf_profile _ _ Hu).
  rewrite (isAuthorized_wellFormed _ u Hwf), (firstEmailValue_noEmailEntries u Hno).
  now rewrite Hlisted.
Qed.
End GateMore.

Lemma authGate_next_only_authorized_witness :
  let env := productionEnv "example.com" in
  let user := googleProfile "117" "a@example.com" in
  let st := initialState (googleGlobals ["example.com"])
              (requestOf "/dashboard" (Some user)) in
  (isDevelopment env = false
   /\ trace (snd (@authGate MiniRegExp.engine sampleUtils env st))
      = trace st ++ [CallIsAuthorized user; Next]
   /\ In Next [CallIsAuthorized user; Next])
  /\ isAuthenticated (req st) = true
  /\ @isAuthorized MiniRegExp.engine (domains (globals st)) (passportUserOf (req st))
     = Normal (JSBool true)
  /\ fst (@authGate MiniRegExp.engine sampleUtils env st) = Normal tt
  /\ exists o,
      Request.userInfo (req (snd (@authGate MiniRegExp.engine sampleUtils env st)))
      = Some o.
Proof.
  intros env user st.
  split; [split; [reflexivity|]; split; [reflexivity | right; left; reflexivity]|].
  apply (@authGate_next_only_authorized MiniRegExp.engine sampleUtils env st
           [CallIsAuthorized user; Next]).
  - reflexivity.
  - reflexivity.
  - right. left. reflexivity.
Defined.

Lemma authGate_authorized_attaches_witness :
  let env := productionEnv "example.com" in
  let user := googleProfile "117" "a@example.com" in
  let st := initialState (googleGlobals ["example.com"])
              (requestOf "/dashboard" (Some user)) in
  (isDevelopment env = false
   /\ isAuthenticated (req st) = true
   /\ sessionProfile (req st) = Some user
   /\ @isAuthorized MiniRegExp.engine (domains (globals st)) user
      = Normal (JSBool true)
   /\ Request.userInfo (req st) = None
   /\ hasProviderEmail (isSlackOauth (globals st)) user = true)
  /\ @authGate MiniRegExp.engine sampleUtils env st
     = (Normal tt,
        withTrace
          (attached st {| UserInfo.email := Some "a@example.com";
                          UserInfo.userId := Some "117";
                          UserInfo.analyticsUserId := md5 "117library" |})
          [CallIsAuthorized user; Next]).
Proof.
  intros env user st.
  split; [split; [reflexivity|]; split; [reflexivity|]; split; [reflexivity|];
          split; [reflexivity|]; split; reflexivity|].
  apply (@authGate_authorized_attaches MiniRegExp.engine sampleUtils env st user
           (JSBool true)); reflexivity.
Defined.

Lemma authGate_then_authCallback_witness :
  let env := productionEnv "example.com" in
  let st := initialState (googleGlobals ["example.com"]) (requestOf "/dashboard" None) in
  let st1 := snd (@authGate MiniRegExp.engine sampleUtils env st) in
  (isDevelopment env = false /\ isAuthenticated (req st) = false)
  /\ exists target,
      authCallback st1 = (Normal tt, withTrace st1 (trace st1 ++ [Redirect target]))
      /\ target = (if String.eqb (Request.path (req st)) "" then "/"
                   else Request.path (req st))
      /\ target <> "".
Proof.
  intros env st st1. split; [split; reflexivity|].
  apply (@authGate_then_authCallback MiniRegExp.engine sampleUtils env st);
    reflexivity.
Defined.

(** A Slack profile: the address is in [email], there are no [emails]. *)
Lemma authGate_address_in_email_only_witness :
  let env := {| NODE_ENV := Some "production"; TEST_EMAIL := None;
                APPROVED_DOMAINS := Some "example.com";
                OAUTH_STRATEGY := Some "Slack" |} in
  let user := {| Profile.id := Some "U1"; Profile.email := Some "a@example.com";
                 Profile.emails := None |} in
  let g := {| domains := ["example.com"]; authStrategy := "Slack";
              isSlackOauth := true |} in
  let st := initialState g (requestOf "/" (Some user)) in
  (fst (loadModule env) = Normal g
   /\ isDevelopment env = false
   /\ isAuthenticated (req st) = true
   /\ sessionProfile (req st) = Some user
   /\ noEmailEntries user = true
   /\ forallb (@wellFormed MiniRegExp.engine) (domains (globals st)) = true
   /\ @listed MiniRegExp.engine (domains (globals st)) "" = false)
  /\ @authGate MiniRegExp.engine sampleUtils env st
     = (Normal tt,
        withTrace st [CallIsAuthorized user; CallIsAuthorized user;
                      NextError (Error "Unauthorized")]).
Proof.
  intros env user g st.
  split; [split; [reflexivity|]; split; [reflexivity|]; split; [reflexivity|];
          split; [reflexivity|]; split; [reflexivity|]; split; reflexivity|].
  apply (@authGate_address_in_email_only MiniRegExp.engine sampleUtils env st user);
    reflexivity.
Defined.

(** ** The digest in hex *)

Lemma string_of_list_ascii_length (l : list ascii) :
  String.length (string_of_list_ascii l) = List.length l.
Proof. induction l as [|c l IH]; simpl; [reflexivity | now rewrite IH]. Qed.

Lemma hexByte_flat_map_length (bytes : list Z) :
  List.length (flat_map Crypto.hexByte bytes) = 2 * List.length bytes.
Proof. induction bytes as [|b l IH]; simpl; [reflexivity | rewrite IH; lia]. Qed.

Lemma littleEndian_length (count : nat) (x : Z) :
  List.length (Crypto.littleEndian count x) = count.
Proof. unfold Crypto.littleEndian. now rewrite length_map, length_seq. Qed.

Lemma littleEndian_bytes (count : nat) (x : Z) :
  Forall (fun b => (0 <= b < 256)%Z) (Crypto.littleEndian count x).
Proof.
  unfold Crypto.littleEndian. apply Forall_forall. intros b Hb.
  apply in_map_iff in Hb as (i & <- & _).
  change 0xff%Z with (Z.ones 8). rewrite Z.land_ones by lia.
  apply Z.mod_pos_bound. lia.
Qed.

Lemma hexDigit_lower (n : Z) :
  (0 <= n < 16)%Z -> isLowerHexDigit (Crypto.hexDigit n) = true.
Proof.
  intros Hn.
  assert (Hall : forallb (fun i => isLowerHexDigit (Crypto.hexDigit (Z.of_nat i)))
                         (seq 0 16) = true) by reflexivity.
  rewrite forallb_forall in Hall.
  rewrite <- (Z2Nat.id n) by lia. apply Hall, in_seq. lia.
Qed.

Lemma hexByte_lower (b : Z) :
  (0 <= b < 256)%Z ->
  Forall (fun c => isLowerHexDigit c = true) (Crypto.hexByte b).
Proof.
  intros Hb. unfold Crypto.hexByte. repeat constructor.
  - apply hexDigit_lower. rewrite Z.shiftr_div_pow2 by lia.
    change (2 ^ 4)%Z with 16%Z. split.
    + apply Z.div_pos; lia.
    + apply Z.div_lt_upper_bound; lia.
  - apply hexDigit_lower. change 0xf%Z with (Z.ones 4).
    rewrite Z.land_ones by lia. apply Z.mod_pos_bound. lia.
Qed.

(** X19: whatever the data, [md5] gives 32 characters, each a digit or a
    letter from [a] to [f]. *)
Theorem md5_hex_digest (data : string) :
  String.length (md5 data) = 32
  /\ Forall (fun c => isLowerHexDigit c = true) (list_ascii_of_string (md5 data)).
Proof.
  unfold md5, Crypto.hex.
  set (h := Crypto.digest (Crypto.utf8 data)). split.
  - rewrite string_of_list_ascii_length, hexByte_flat_map_length.
    rewrite !length_app, !littleEndian_length. reflexivity.
  - rewrite list_ascii_of_string_of_list_ascii.
    apply Forall_flat_map. apply Forall_forall. intros b Hb.
    apply hexByte_lower.
    assert (Hbytes : Forall (fun b => (0 <= b < 256)%Z)
                       (Crypto.littleEndian 4 (Crypto.dA h)
                        ++ Crypto.littleEndian 4 (Crypto.dB h)
                        ++ Crypto.littleEndian 4 (Crypto.dC h)
                        ++ Crypto.littleEndian 4 (Crypto.dD h)))
      by (repeat (apply Forall_app; split); apply littleEndian_bytes).
    rewrite Forall_forall in Hbytes. now apply Hbytes.
Qed.

(** ** The session middleware *)

Section SessionStoreFacts.
Import SessionStore.
Context {libraries : Libraries}.
Variable env : SessionStore.Env.

Lemma runSession_outcome (options : Options) :
  runSession options
  = match session_new options, session_run options with
    | Some e, _ => (Throw e, [])
    | None, Some e => (Throw e, [RunSession options])
    | None, None => (Normal tt, [RunSession options])
    end.
Proof. unfold runSession. now destruct (session_new options), (session_run options). Qed.

Lemma getDatastoreClient_events :
  snd (getDatastoreClient env)
  = [Warn "No GCP_PROJECT_ID provided! Will not connect to GCloud Datastore!"]
  \/ snd (getDatastoreClient env) = [GetAuth].
Proof.
  unfold getDatastoreClient.
  destruct (match GCP_PROJECT_ID env with
            | Some p => if String.eqb p "" then None else Some p
            | None => None
            end) as [p|]; [|now left].
  destruct getAuth as [credentials|e]; [|now right].
  destruct (Datastore_new _); now right.
Qed.

Ltac not_logged :=
  let Hin := fresh "Hin" in
  intros Hin; repeat rewrite in_app_iff in Hin; simpl in Hin;
  intuition discriminate.

(** The [try] either ends with the Datastore session run, or throws; it
    logs no failure itself and does not call the memory session. *)
Lemma datastoreSession_outcome :
  match datastoreSession env with
  | (Normal _, evs) =>
      exists client before,
        evs = before ++ [RunSession (datastoreOptions env client)]
        /\ ~ In (Warn "Failed to load datastore") evs
  | (Throw _, evs) =>
      ~ In (Warn "Failed to load datastore") evs
      /\ ~ In (RunSession (memoryOptions env)) evs
  end.
Proof.
  unfold datastoreSession. pose proof getDatastoreClient_events as Hevs.
  destruct (getDatastoreClient env) as [[client|e] evs]; simpl in Hevs.
  - destruct (DatastoreStore_new _) as [e1|].
    + destruct Hevs as [-> | ->]; split; not_logged.
    + rewrite runSession_outcome.
      destruct (session_new (datastoreOptions env client)) as [e2|];
        [|destruct (session_run (datastoreOptions env client)) as [e3|]].
      * destruct Hevs as [-> | ->]; split; not_logged.
      * destruct Hevs as [-> | ->]; split; not_logged.
      * exists client, evs. split; [reflexivity|].
        destruct Hevs as [-> | ->]; not_logged.
  - destruct Hevs as [-> | ->]; split; not_logged.
Qed.

(** X20: no error of the Datastore path reaches the caller: whatever the
    middleware throws was thrown by building or calling the memory-store
    session, after the failure of the Datastore path was logged. *)
Theorem sessionMiddleware_throws (e : JSError) :
  fst (sessionMiddleware env) = Throw e ->
  (session_new (memoryOptions env) = Some e
   \/ session_run (memoryOptions env) = Some e)
  /\ In (Warn "Failed to load datastore") (snd (sessionMiddleware env)).
Proof.
  unfold sessionMiddleware.
  destruct (datastoreSession env) as [[[]|e0] evs]; [discriminate|].
  rewrite runSession_outcome.
  destruct (session_new (memoryOptions env)) as [e1|] eqn:Hnew;
    [|destruct (session_run (memoryOptions env)) as [e2|] eqn:Hrun];
    simpl; intros [= <-] || intros H; try discriminate;
    (split; [auto | apply in_or_app; right; now left]).
Qed.

(** X21: when the middleware returns, the last thing it did was to call a
    session middleware on the request: the one on the memory store, which
    saves uninitialized sessions, exactly when the failure of the Datastore
    path was logged, and else the one on the Datastore. *)
Theorem sessionMiddleware_returns :
  fst (sessionMiddleware env) = Normal tt ->
  exists before options,
    snd (sessionMiddleware env) = before ++ [RunSession options]
    /\ (In (Warn "Failed to load datastore") (snd (sessionMiddleware env))
        -> options = memoryOptions env)
    /\ (~ In (Warn "Failed to load datastore") (snd (sessionMiddleware env))
        -> exists client, options = datastoreOptions env client).
Proof.
  unfold sessionMiddleware. pose proof datastoreSession_outcome as Hds.
  destruct (datastoreSession env) as [[[]|e0] evs].
  - intros _. destruct Hds as (client & before & -> & Hno).
    exists before, (datastoreOptions env client). simpl.
    split; [reflexivity|]. split; [intros Hin; contradiction | eauto].
  - destruct Hds as [Hno _]. rewrite runSession_outcome.
    destruct (session_new (memoryOptions env)); [discriminate|].
    destruct (session_run (memoryOptions env)); [discriminate|].
    intros _. simpl.
    exists (evs ++ [Warn "Failed to load datastore"]), (memoryOptions env).
    split; [now rewrite <- app_assoc|]. split; [reflexivity|].
    intros Hnot. exfalso. apply Hnot. apply in_or_app. right. now left.
Qed.

(** X22: without a project id ([GCP_PROJECT_ID] unset or empty) the
    credentials are never asked for and the warning comes first; the
    Datastore store is then built on [null], and only if that, or the
    session on it, throws is the memory store used. *)
Theorem sessionMiddleware_without_project :
  GCP_PROJECT_ID env = None \/ GCP_PROJECT_ID env = Some "" ->
  ~ In GetAuth (snd (sessionMiddleware env))
  /\ hd_error (snd (sessionMiddleware env))
     = Some (Warn "No GCP_PROJECT_ID provided! Will not connect to GCloud Datastore!")
  /\ (In (Warn "Failed to load datastore") (snd (sessionMiddleware env))
      <-> DatastoreStore_new {| kind := "express-sessions"; dataset := None;
                                expirationMs := serverExpiration |} <> None
          \/ session_new (datastoreOptions env None) <> None
          \/ session_run (datastoreOptions env None) <> None).
Proof.
  intros Hid.
  assert (Hclient : getDatastoreClient env
                    = (Normal None,
                       [Warn "No GCP_PROJECT_ID provided! Will not connect to GCloud Datastore!"])).
  { unfold getDatastoreClient. destruct Hid as [-> | ->]; reflexivity. }
  unfold sessionMiddleware, datastoreSession. rewrite Hclient.
  rewrite !runSession_outcome.
  destruct (DatastoreStore_new _) as [e1|] eqn:H1;
    [|destruct (session_new (datastoreOptions env None)) as [e2|] eqn:H2;
      [|destruct (session_run (datastoreOptions env None)) as [e3|] eqn:H3]];
    destruct (session_new (memoryOptions env)) as [e4|] eqn:H4;
    try destruct (session_run (memoryOptions env)) as [e5|] eqn:H5;
    simpl;
    (split; [not_logged|]); (split; [reflexivity|]);
    (split; [intros Hin | intros Hor]);
    first [ left; discriminate
          | right; left; discriminate
          | right; right; discriminate
          | exfalso; revert Hin; not_logged
          | solve [repeat rewrite in_app_iff; simpl; auto 6]
          | destruct Hor as [H|[H|H]]; congruence ].
Qed.
End SessionStoreFacts.

Lemma sessionMiddleware_throws_witness :
  let env := {| SessionStore.GCP_PROJECT_ID := Some "library";
                SessionStore.SESSION_SECRET := Some "s3cret" |} in
  fst (@SessionStore.sessionMiddleware brokenLibraries env)
  = Throw (Error "session failed")
  /\ (@SessionStore.session_new brokenLibraries (SessionStore.memoryOptions env)
      = Some (Error "session failed")
      \/ @SessionStore.session_run brokenLibraries (SessionStore.memoryOptions env)
         = Some (Error "session failed"))
  /\ In (SessionStore.Warn "Failed to load datastore")
        (snd (@SessionStore.sessionMiddleware brokenLibraries env)).
Proof.
  intros env. split; [reflexivity|].
  apply (@sessionMiddleware_throws brokenLibraries env (Error "session failed")).
  reflexivity.
Defined.

Lemma sessionMiddleware_returns_witness :
  let env := {| SessionStore.GCP_PROJECT_ID := Some "library";
                SessionStore.SESSION_SECRET := Some "s3cret" |} in
  fst (@SessionStore.sessionMiddleware offlineLibraries env) = Normal tt
  /\ exists before options,
      snd (@SessionStore.sessionMiddleware offlineLibraries env)
      = before ++ [SessionStore.RunSession options]
      /\ (In (SessionStore.Warn "Failed to load datastore")
             (snd (@SessionStore.sessionMiddleware offlineLibraries env))
          -> options = SessionStore.memoryOptions env)
      /\ (~ In (SessionStore.Warn "Failed to load datastore")
              (snd (@SessionStore.sessionMiddleware offlineLibraries env))
          -> exists client, options = SessionStore.datastoreOptions env client).
Proof.
  intros env. split; [reflexivity|].
  apply (@sessionMiddleware_returns offlineLibraries env). reflexivity.
Defined.

Lemma sessionMiddleware_without_project_witness :
  let env := {| SessionStore.GCP_PROJECT_ID := None;
                SessionStore.SESSION_SECRET := Some "s3cret" |} in
  (SessionStore.GCP_PROJECT_ID env = None \/ SessionStore.GCP_PROJECT_ID env = Some "")
  /\ @SessionStore.sessionMiddleware offlineLibraries env
     = (Normal tt,
        [SessionStore.Warn "No GCP_PROJECT_ID provided! Will not connect to GCloud Datastore!";
         SessionStore.Warn "Failed to load datastore";
         SessionStore.RunSession (SessionStore.memoryOptions env)])
  /\ ~ In SessionStore.GetAuth
          (snd (@SessionStore.sessionMiddleware offlineLibraries env)).
Proof.
  intros env. split; [now left|]. split; [reflexivity|].
  apply (@sessionMiddleware_without_project offlineLibraries env). now left.
Defined.

(** ** When the gate throws *)

Section GateThrows.
Context {engine : RegExpEngine} {utils : ServerUtils}.
Variable env : Env.

Lemma setUserInfo_production_throw (st st' : State) (e : JSError) :
  isDevelopment env = false ->
  setUserInfo env st = (Throw e, st') ->
  st' = st /\ exists msg, e = TypeError msg.
Proof.
  intros Hdev. rewrite (setUserInfo_production_cases env st Hdev).
  pose proof (readEmail_profile (globals st) (req st)) as Hread.
  destruct (readEmail (globals st) (req st)) as [email|e0].
  - destruct (Request.userInfo (req st)), (sessionProfile (req st)); discriminate.
  - intros [= <- <-]. split; [reflexivity | apply Hread].
Qed.

Lemma setUserInfo_outcome_trace (st : State) (t : list Event) :
  fst (setUserInfo env (withTrace st t)) = fst (setUserInfo env st).
Proof.
  destruct (isDevelopment env) eqn:Hdev.
  - now rewrite !(setUserInfo_development env _ Hdev).
  - rewrite !(setUserInfo_production_cases env _ Hdev).
    cbn [globals req withTrace].
    destruct (readEmail (globals st) (req st)); [|reflexivity].
    destruct (Request.userInfo (req st)), (sessionProfile (req st)); reflexivity.
Qed.

(** X23: the gate throws only outside development mode and for an
    authenticated request, and what it throws is what the matcher threw
    or, after the matcher answered [true], what [setUserInfo] threw; in
    both cases the request is left as it was. *)
Theorem authGate_throws (st : State) (e : JSError) :
  fst (authGate env st) = Throw e ->
  isDevelopment env = false
  /\ isAuthenticated (req st) = true
  /\ req (snd (authGate env st)) = req st
  /\ (isAuthorized (domains (globals st)) (passportUserOf (req st)) = Throw e
      \/ (isAuthorized (domains (globals st)) (passportUserOf (req st))
          = Normal (JSBool true)
          /\ fst (setUserInfo env st) = Throw e)).
Proof.
  rewrite authGate_cases. destruct (isDevelopment env) eqn:Hdev.
  - rewrite setUserInfo_then_next, (setUserInfo_development env st Hdev).
    discriminate.
  - destruct (isAuthenticated (req st)); [|discriminate]. cbv zeta.
    destruct (isAuthorized (domains (globals st)) (passportUserOf (req st)))
      as [v|e0] eqn:Hres.
    + destruct (truthy v) eqn:Hv; [|discriminate].
      rewrite setUserInfo_then_next.
      pose proof (setUserInfo_outcome_trace st
                    (trace st ++ [CallIsAuthorized (passportUserOf (req st))]))
        as Hfst.
      destruct (setUserInfo env (withTrace st _)) as [[[]|e1] st'] eqn:Hrun;
        [discriminate|].
      simpl. intros [= <-].
      destruct (setUserInfo_production_throw _ _ _ Hdev Hrun) as [-> _].
      repeat split; try reflexivity. right.
      destruct v as [|[]]; try discriminate. split; [reflexivity|].
      now rewrite <- Hfst.
    + simpl. intros [= <-]. repeat split; try reflexivity. now left.
Qed.
End GateThrows.

Lemma authGate_throws_witness :
  let env := productionEnv "c++dev@example.com" in
  let user := googleProfile "117" "a@other.com" in
  let st := initialState (googleGlobals ["c++dev@example.com"])
              (requestOf "/dashboard" (Some user)) in
  fst (@authGate MiniRegExp.engine sampleUtils env st)
  = Throw (SyntaxError "Invalid regular expression: /c++dev@example.com/")
  /\ isDevelopment env = false
  /\ isAuthenticated (req st) = true
  /\ req (snd (@authGate MiniRegExp.engine sampleUtils env st)) = req st.
Proof.
  intros env user st. split; [reflexivity|].
  destruct (@authGate_throws MiniRegExp.engine sampleUtils env st
              (SyntaxError "Invalid regular expression: /c++dev@example.com/")
              eq_refl) as (Hdev & Hauth & Hreq & _).
  auto.
Defined.
